(** * bittorrent-client: the client, its resolver and the peer-discovery layer

    A shallow embedding of [index.js] (three revisions, kept under
    [src/unnamed/part_000], [part_001] and [part_002]) and of
    [lib/peer-discovery.js], with the properties the specification states
    about them.

    JavaScript values are kept as small tagged unions with the language's
    truthiness and strict equality written out; byte counts are IEEE
    binary64 numbers ([PrimFloat]); objects that are compared by identity
    carry an explicit identity; mutable objects are records threaded
    through the calls, and what a call changed before it threw stays
    changed.  Collaborators that live outside the repository (the DHT, the
    tracker client, [portfinder], [run-parallel], [magnet-uri],
    [parse-torrent], Node's [EventEmitter]) are Section variables, or their
    calls are logged and their callbacks and events are inputs of a step
    function, or they are small models of their documented behaviour, said
    so where they are introduced. *)

From Stdlib Require Import List String Ascii Bool Arith ZArith Lia PeanoNat.
From Stdlib Require Import Strings.Byte.
From Stdlib Require Import Floats.PrimFloat.
From Stdlib Require Import Permutation.
From Stdlib Require Import Relations.
Import ListNotations.

Local Open Scope list_scope.
Local Open Scope string_scope.
Local Open Scope nat_scope.

(** ** JavaScript values *)

(** Primitive values that can sit in an [infoHash] slot. *)
Inductive prim : Type :=
| PUndefined
| PNull
| PStr (s : string).

(** The values an identifier (or the result of a parser) can be: a
    primitive, a [Buffer], or any other object, of which only the
    [infoHash] property is ever read ([PUndefined] when it has none). *)
Inductive value : Type :=
| VPrim (p : prim)
| VBuffer (b : list byte)
| VObject (infoHash : prim).

(** Outcome of a call: a normal return or a thrown exception. *)
Inductive Completion (A : Type) : Type :=
| Normal (a : A)
| Throw (msg : string).
Arguments Normal {A} a.
Arguments Throw {A} msg.

Definition bind {A B} (c : Completion A) (k : A -> Completion B) : Completion B :=
  match c with
  | Normal a => k a
  | Throw m => Throw m
  end.

Notation "x <- c ;; k" := (bind c (fun x => k))
  (at level 61, c at next level, right associativity).

(** [ToBoolean] on primitives: the empty string, [undefined] and [null]
    are falsy. *)
Definition truthy (p : prim) : bool :=
  match p with
  | PStr s => negb (String.eqb s "")
  | _ => false
  end.

(** [a === b] on primitives. *)
Definition strict_eq (a b : prim) : bool :=
  match a, b with
  | PUndefined, PUndefined => true
  | PNull, PNull => true
  | PStr s, PStr t => String.eqb s t
  | _, _ => false
  end.

(** [v.infoHash]: a [TypeError] on [undefined] and [null], [undefined] on
    a string or a Buffer. *)
Definition get_infoHash (v : value) : Completion prim :=
  match v with
  | VPrim PUndefined => Throw "TypeError: Cannot read property 'infoHash' of undefined"
  | VPrim PNull => Throw "TypeError: Cannot read property 'infoHash' of null"
  | VPrim (PStr _) => Normal PUndefined
  | VBuffer _ => Normal PUndefined
  | VObject h => Normal h
  end.

(** [v && v.infoHash]: a falsy [v] is the result itself. *)
Definition and_infoHash (v : value) : prim :=
  match v with
  | VPrim p => if truthy p then PUndefined else p
  | VBuffer _ => PUndefined
  | VObject h => h
  end.

(** ** [Buffer.prototype.toString('hex')] *)

Definition hex_digits : string := "0123456789abcdef".

Definition hexdigit (n : nat) : ascii :=
  match String.get n hex_digits with
  | Some c => c
  | None => "0"%char
  end.

Definition byte_hex (b : byte) : string :=
  let n := Byte.to_nat b in
  String (hexdigit (n / 16)) (String (hexdigit (n mod 16)) EmptyString).

Fixpoint toString_hex (buf : list byte) : string :=
  match buf with
  | [] => EmptyString
  | b :: rest => byte_hex b ++ toString_hex rest
  end.




(** ** The identifier resolver ([Client.toInfoHash], part_001 and part_002) *)

Definition magnet_prefix : string := "magnet:?xt=urn:btih:".

Section Resolver.

(** [magnet-uri] and [parse-torrent] are npm dependencies: their code is
    not part of the repository, so they are parameters here.
    [parseTorrent] may throw. *)
Variable magnet : string -> value.
Variable parseTorrent : value -> Completion value.

(** [/^magnet:/.test(s)] *)
Definition is_magnet (s : string) : bool := String.prefix "magnet:" s.

Definition toInfoHash (torrentId : value) : prim :=
  match torrentId with
  | VPrim (PStr s) =>
      (* [!magnet && length === 40 || length === 32]: [&&] binds tighter *)
      let torrentId :=
        if (negb (is_magnet s) && (String.length s =? 40)) || (String.length s =? 32)
        then magnet_prefix ++ s
        else s in
      let info := magnet torrentId in
      and_infoHash info
  | VBuffer b =>
      if List.length b =? 20
      then PStr (toString_hex b)
      else
        (* try { return parseTorrent(torrentId).infoHash } catch (err) { return null } *)
        match (p <- parseTorrent (VBuffer b) ;; get_infoHash p) with
        | Normal h => h
        | Throw _ => PNull
        end
  | VObject h =>
      (* [torrentId && torrentId.infoHash] with a truthy object *)
      if truthy h then h else PNull
  | VPrim _ => PNull
  end.

End Resolver.

(** ** Torrent entries and the registry *)

(** A [Torrent] object as far as the client reads it.  Objects are compared
    by identity ([indexOf]), so every entry carries the identity it was
    allocated with. *)
Record Torrent : Type := mkTorrent {
  t_uid : nat;
  t_torrentId : value;
  t_infoHash : prim;
  t_uploaded : float;
  t_downloaded : float
}.

(** Modelled from the spec: [lib/torrent.js] (the [Torrent] constructor) is
    not among the sources.  Per section 4.4 an entry is constructed from the
    resolved identifier; it starts with no bytes transferred.  [resolve] is
    the resolver of the revision at hand. *)
Definition Torrent_new (resolve : value -> prim) (uid : nat) (torrentId : value) : Torrent :=
  {| t_uid := uid;
     t_torrentId := torrentId;
     t_infoHash := resolve torrentId;
     t_uploaded := 0%float;
     t_downloaded := 0%float |}.

(** The loop of [Client.prototype.get]: the first entry whose [infoHash]
    is [===] the one looked for. *)
Fixpoint find_infoHash (infoHash : prim) (torrents : list Torrent) : option Torrent :=
  match torrents with
  | [] => None
  | torrent :: rest =>
      if strict_eq (t_infoHash torrent) infoHash then Some torrent
      else find_infoHash infoHash rest
  end.

(** [Array.prototype.indexOf] on objects: position of the first element
    that is the same object, [-1] when there is none. *)
Fixpoint indexOf (torrent : Torrent) (torrents : list Torrent) : Z :=
  match torrents with
  | [] => (-1)%Z
  | t :: rest =>
      if t_uid t =? t_uid torrent then 0%Z
      else
        let i := indexOf torrent rest in
        if (i <? 0)%Z then (-1)%Z else (i + 1)%Z
  end.

Fixpoint remove_nth {A} (n : nat) (l : list A) : list A :=
  match l, n with
  | [], _ => []
  | _ :: rest, O => rest
  | x :: rest, S n' => x :: remove_nth n' rest
  end.

(** [array.splice(start, 1)]: a negative [start] counts from the end. *)
Definition splice1 {A} (start : Z) (l : list A) : list A :=
  let len := Z.of_nat (List.length l) in
  let actual := if (start <? 0)%Z then Z.max (len + start) 0 else Z.min start len in
  remove_nth (Z.to_nat actual) l.

(** The [ratio] getter (the same text in the three revisions of the
    client): two [reduce] passes, then the guarded division. *)
Definition ratio (torrents : list Torrent) : float :=
  let uploaded :=
    fold_left (fun total torrent => (total + t_uploaded torrent)%float) torrents 0%float in
  let downloaded :=
    fold_left (fun total torrent => (total + t_downloaded torrent)%float) torrents 0%float in
  if (downloaded =? 0)%float then 0%float else (uploaded / downloaded)%float.

(** ['No torrent with id ' + torrentId] *)
Definition bytes_to_string (b : list byte) : string :=
  string_of_list_ascii (map ascii_of_byte b).

Definition ToString (v : value) : string :=
  match v with
  | VPrim PUndefined => "undefined"
  | VPrim PNull => "null"
  | VPrim (PStr s) => s
  | VBuffer b => bytes_to_string b
  | VObject _ => "[object Object]"
  end.

Definition no_torrent (torrentId : value) : string :=
  "No torrent with id " ++ ToString torrentId.

(** An error value handed to a callback: [None] is a falsy [err]
    ([null] or [undefined]). *)
Definition error : Type := option string.

Definition is_error (err : error) : bool :=
  match err with Some _ => true | None => false end.

(** ** [run-parallel] *)

(** [run-parallel] is an npm dependency, not part of the repository.  The
    model follows its documented behaviour: every task is started; each
    task's callback is [done]; the final callback is called once, with the
    first error as soon as a task reports one, or when the last task has
    reported; after that it is dropped ([cb = null]). *)
Module RunParallel.

Record state : Type := mk {
  pending : Z;
  cb_set : bool
}.

(** State when [parallel(tasks, cb)] has [n] tasks; [has_cb] tells
    whether a callback was passed. *)
Definition init (n : nat) (has_cb : bool) : state :=
  {| pending := Z.of_nat n; cb_set := has_cb |}.

(** [done(i, err, result)]:
    [if (--pending === 0 || err) { cb && cb(err, results); cb = null }].
    The second component is [Some err] when the final callback is called. *)
Definition done (s : state) (err : error) : state * option error :=
  let pending' := (pending s - 1)%Z in
  if (pending' =? 0)%Z || is_error err
  then ({| pending := pending'; cb_set := false |},
        if cb_set s then Some err else None)
  else ({| pending := pending'; cb_set := cb_set s |}, None).

(** [if (!pending) { cb && cb(null, results); cb = null }] for an empty
    task list. *)
Definition empty (s : state) : state * option error :=
  ({| pending := pending s; cb_set := false |},
   if cb_set s then Some None else None).

End RunParallel.

(** ** What the client does to the outside *)

(** The callback a client method hands on: the caller's own, the [done]
    of task [i] of a [parallel] group, or none. *)
Inductive callback : Type :=
| CbNone
| CbUser
| CbTask (i : nat).

(** Events the client emits on itself. *)
Inductive ClientEvent : Type :=
| EvReady
| EvError (err : string)
| EvAddTorrent (uid : nat).

(** Calls into collaborators and emissions, in program order. *)
Inductive Effect : Type :=
| TorrentDestroy (uid : nat) (cb : callback)   (* torrent.destroy(cb) *)
| DhtNew                                       (* new DHT(...) *)
| DhtListen (port : option N)                (* dht.listen(port) *)
| DhtLookup (infoHash : prim)                  (* dht.lookup(infoHash, ...) *)
| DhtDestroy (cb : callback)                   (* dht.destroy(cb) *)
| PortfinderGetPort                            (* portfinder.getPort(...) *)
| Emit (ev : ClientEvent)                      (* self.emit(...) *)
| Callback (err : error).                      (* the final callback of destroy *)

(** ** The client, revision [part_001] *)
Module Part001.

Record Client : Type := mkClient {
  torrents : list Torrent;
  next_uid : nat;               (* identity of the next allocated object *)
  trace : list Effect
}.

Section WithParsers.
Variable magnet : string -> value.
Variable parseTorrent : value -> Completion value.

(** [Client.prototype.get] *)
Definition get (self : Client) (torrentId : value) : option Torrent :=
  let infoHash := toInfoHash magnet parseTorrent torrentId in
  find_infoHash infoHash (torrents self).

(** [Client.prototype.add]: no lookup of the registry before the
    [push].  The wiring of the torrent's events to the client
    registers listeners only and is left out. *)
Definition add (self : Client) (torrentId : value) : Torrent * Client :=
  let torrent := Torrent_new (toInfoHash magnet parseTorrent) (next_uid self) torrentId in
  (torrent,
   {| torrents := torrents self ++ [torrent];
      next_uid := S (next_uid self);
      trace := trace self |}).

(** [Client.prototype.remove] *)
Definition remove (self : Client) (torrentId : value) (cb : callback)
  : Completion unit * Client :=
  match get self torrentId with
  | None => (Throw (no_torrent torrentId), self)
  | Some torrent =>
      (Normal tt,
       {| torrents := splice1 (indexOf torrent (torrents self)) (torrents self);
          next_uid := next_uid self;
          trace := trace self ++ [TorrentDestroy (t_uid torrent) cb] |})
  end.

End WithParsers.

End Part001.

(** ** The client, revision [part_000] *)
Module Part000.

Record Client : Type := mkClient {
  torrents : list Torrent;
  dht : bool;                   (* [self.dht]: a DHT object, or falsy *)
  par : RunParallel.state;      (* the task group of [destroy] *)
  next_uid : nat;
  trace : list Effect
}.

Definition set_torrents (self : Client) (ts : list Torrent) : Client :=
  {| torrents := ts; dht := dht self; par := par self;
     next_uid := next_uid self; trace := trace self |}.

Definition log (self : Client) (e : Effect) : Client :=
  {| torrents := torrents self; dht := dht self; par := par self;
     next_uid := next_uid self; trace := trace self ++ [e] |}.

Definition set_par (self : Client) (p : RunParallel.state) : Client :=
  {| torrents := torrents self; dht := dht self; par := p;
     next_uid := next_uid self; trace := trace self |}.

(** The tasks [destroy] builds. *)
Inductive Task : Type :=
| TaskRemove (infoHash : prim)     (* function (cb) { self.remove(torrent.infoHash, cb) } *)
| TaskDhtDestroy.                  (* function (cb) { self.dht.destroy(cb) } *)

Section WithParsers.
Variable parseTorrent : value -> Completion value.

(** The resolver this revision uses inside [get]:
    [parsed = parseTorrent(torrentId)], then
    [if (!parsed || !parsed.infoHash) return null]. *)
Definition resolve (torrentId : value) : Completion (option prim) :=
  parsed <- parseTorrent torrentId ;;
  match parsed with
  | VObject h => if truthy h then Normal (Some h) else Normal None
  | VPrim _ | VBuffer _ => Normal None
  end.

(** [Client.prototype.get] *)
Definition get (self : Client) (torrentId : value) : Completion (option Torrent) :=
  r <- resolve torrentId ;;
  match r with
  | None => Normal None
  | Some infoHash => Normal (find_infoHash infoHash (torrents self))
  end.

(** [Client.prototype.remove] *)
Definition remove (self : Client) (torrentId : value) (cb : callback)
  : Completion unit * Client :=
  match get self torrentId with
  | Throw m => (Throw m, self)
  | Normal None => (Throw (no_torrent torrentId), self)
  | Normal (Some torrent) =>
      let self := set_torrents self
                    (splice1 (indexOf torrent (torrents self)) (torrents self)) in
      (Normal tt, log self (TorrentDestroy (t_uid torrent) cb))
  end.

(** Running task [i] with [done] of [i] as its callback. *)
Definition run_task (self : Client) (i : nat) (task : Task) : Completion unit * Client :=
  match task with
  | TaskRemove infoHash => remove self (VPrim infoHash) (CbTask i)
  | TaskDhtDestroy => (Normal tt, log self (DhtDestroy (CbTask i)))
  end.

(** [tasks.forEach(function (task, i) { task(...) })]: an exception
    thrown by a task leaves the loop. *)
Fixpoint forEach (self : Client) (i : nat) (tasks : list Task) : Completion unit * Client :=
  match tasks with
  | [] => (Normal tt, self)
  | task :: rest =>
      match run_task self i task with
      | (Normal _, self') => forEach self' (S i) rest
      | (Throw m, self') => (Throw m, self')
      end
  end.

(** The task list of [Client.prototype.destroy]. *)
Definition destroy_tasks (self : Client) : list Task :=
  map (fun torrent => TaskRemove (t_infoHash torrent)) (torrents self)
  ++ (if dht self then [TaskDhtDestroy] else []).

(** [parallel(tasks, cb)] as [run-parallel] runs it. *)
Definition parallel (self : Client) (tasks : list Task) (has_cb : bool)
  : Completion unit * Client :=
  let self := set_par self (RunParallel.init (List.length tasks) has_cb) in
  match tasks with
  | [] =>
      let '(p, fired) := RunParallel.empty (par self) in
      let self := set_par self p in
      (Normal tt, match fired with Some err => log self (Callback err) | None => self end)
  | _ => forEach self 0 tasks
  end.

(** [Client.prototype.destroy] *)
Definition destroy (self : Client) (has_cb : bool) : Completion unit * Client :=
  let tasks := destroy_tasks self in
  parallel self tasks has_cb.

End WithParsers.

(** A teardown task reports: its callback, [done] of task [i], is
    called with [err]. *)
Definition task_done (self : Client) (err : error) : Client :=
  let '(p, fired) := RunParallel.done (par self) err in
  let self := set_par self p in
  match fired with
  | Some e => log self (Callback e)
  | None => self
  end.

(** A schedule: the order in which tasks report, with their outcome. *)
Definition schedule : Type := list (nat * error).

Definition run_schedule (self : Client) (s : schedule) : Client :=
  fold_left (fun c r => task_done c (snd r)) s self.

(** *** Reading a teardown *)

(** The errors the final callback of [destroy] was called with, one per
    call. *)
Definition callbacks (c : Client) : list error :=
  flat_map (fun e => match e with Callback err => [err] | _ => [] end) (trace c).

(** The teardown calls of the torrents [ts], the first one holding the
    callback of task [i]. *)
Fixpoint teardowns (i : nat) (ts : list Torrent) : list Effect :=
  match ts with
  | [] => []
  | t :: rest => TorrentDestroy (t_uid t) (CbTask i) :: teardowns (S i) rest
  end.

(** The first error of a schedule, in the order of the reports. *)
Fixpoint first_error (s : schedule) : error :=
  match s with
  | [] => None
  | (_, Some e) :: _ => Some e
  | (_, None) :: rest => first_error rest
  end.

(** The number of reports up to and including the first failing one; the
    number of all reports when none fails. *)
Fixpoint fire_point (s : schedule) : nat :=
  match s with
  | [] => 0
  | (_, Some _) :: _ => 1
  | (_, None) :: rest => S (fire_point rest)
  end.

(** The entry's content identifier is one [get] finds it by. *)
Definition resolves_to_itself (parseTorrent : value -> Completion value) (t : Torrent) : Prop :=
  resolve parseTorrent (VPrim (t_infoHash t)) = Normal (Some (t_infoHash t)).

(** The join the specification asks for: whenever the final callback has
    been called after the first [k] reports of the schedule, all [n] tasks
    are among them. *)
Definition joins_after_all (c : Client) (n : nat) (s : schedule) : Prop :=
  forall k, callbacks (run_schedule c (firstn k s)) <> [] -> n <= k.

End Part000.

(** ** The client, revision [part_002] (readiness barrier) *)
Module Part002.

(** The options the constructor reads; [None] is an absent key. *)
Record Opts : Type := mkOpts {
  o_dht : option bool;
  o_trackers : option bool;
  o_torrentPort : option N;
  o_dhtPort : option N
}.

Record Client : Type := mkClient {
  ready : bool;
  torrents : list Torrent;
  torrentPort : option N;
  dhtPort : option N;
  dht : bool;                              (* [self.dht] holds a DHT *)
  trackersEnabled : bool;
  ready_listeners : list (nat * value);    (* listeners of 'ready', oldest first:
                                              identity of the [once] wrapper and the
                                              [torrentId] bound into [add] *)
  par : RunParallel.state;                 (* the bootstrap task group *)
  par_destroy : RunParallel.state;         (* the task group of [destroy] *)
  next_uid : nat;
  trace : list Effect
}.

Definition set_ready (c : Client) (b : bool) : Client :=
  mkClient b (torrents c) (torrentPort c) (dhtPort c) (dht c) (trackersEnabled c)
           (ready_listeners c) (par c) (par_destroy c) (next_uid c) (trace c).
Definition set_torrents (c : Client) (ts : list Torrent) : Client :=
  mkClient (ready c) ts (torrentPort c) (dhtPort c) (dht c) (trackersEnabled c)
           (ready_listeners c) (par c) (par_destroy c) (next_uid c) (trace c).
Definition set_torrentPort (c : Client) (p : option N) : Client :=
  mkClient (ready c) (torrents c) p (dhtPort c) (dht c) (trackersEnabled c)
           (ready_listeners c) (par c) (par_destroy c) (next_uid c) (trace c).
Definition set_dhtPort (c : Client) (p : option N) : Client :=
  mkClient (ready c) (torrents c) (torrentPort c) p (dht c) (trackersEnabled c)
           (ready_listeners c) (par c) (par_destroy c) (next_uid c) (trace c).
Definition set_dht (c : Client) (b : bool) : Client :=
  mkClient (ready c) (torrents c) (torrentPort c) (dhtPort c) b (trackersEnabled c)
           (ready_listeners c) (par c) (par_destroy c) (next_uid c) (trace c).
Definition set_listeners (c : Client) (ls : list (nat * value)) : Client :=
  mkClient (ready c) (torrents c) (torrentPort c) (dhtPort c) (dht c) (trackersEnabled c)
           ls (par c) (par_destroy c) (next_uid c) (trace c).
Definition set_par (c : Client) (p : RunParallel.state) : Client :=
  mkClient (ready c) (torrents c) (torrentPort c) (dhtPort c) (dht c) (trackersEnabled c)
           (ready_listeners c) p (par_destroy c) (next_uid c) (trace c).
Definition set_par_destroy (c : Client) (p : RunParallel.state) : Client :=
  mkClient (ready c) (torrents c) (torrentPort c) (dhtPort c) (dht c) (trackersEnabled c)
           (ready_listeners c) (par c) p (next_uid c) (trace c).
Definition fresh (c : Client) : Client :=
  mkClient (ready c) (torrents c) (torrentPort c) (dhtPort c) (dht c) (trackersEnabled c)
           (ready_listeners c) (par c) (par_destroy c) (S (next_uid c)) (trace c).
Definition log (c : Client) (e : Effect) : Client :=
  mkClient (ready c) (torrents c) (torrentPort c) (dhtPort c) (dht c) (trackersEnabled c)
           (ready_listeners c) (par c) (par_destroy c) (next_uid c) (trace c ++ [e]).

(** A port is falsy when unset or [0]. *)
Definition port_truthy (p : option N) : bool :=
  match p with
  | Some 0%N | None => false
  | Some _ => true
  end.

Definition opt_default (d : bool) (o : option bool) : bool :=
  match o with Some b => b | None => d end.

(** The bootstrap tasks, in the order the constructor pushes them. *)
Inductive BootstrapTask : Type :=
| TaskPort       (* portfinder.getPort(...) *)
| TaskDht.       (* new DHT, wait for its 'ready' *)

Definition bootstrap_tasks (opts : Opts) : list BootstrapTask :=
  (if port_truthy (o_torrentPort opts) then [] else [TaskPort])
  ++ (if opt_default true (o_dht opts) then [TaskDht] else []).

(** [EventEmitter.prototype.removeListener]: one listener, found by
    identity. *)
Fixpoint remove_listener (id : nat) (ls : list (nat * value)) : list (nat * value) :=
  match ls with
  | [] => []
  | l :: rest => if fst l =? id then rest else l :: remove_listener id rest
  end.

Section WithParsers.
Variable magnet : string -> value.
Variable parseTorrent : value -> Completion value.

(** [Client.prototype.add].  Before readiness the call is parked as a
    one-shot listener of 'ready'.  Afterwards the torrent is created
    and pushed; the event wiring (listener registrations, and the
    'addTorrent' emission deferred to the next tick) is left out. *)
Definition add (self : Client) (torrentId : value) : Client :=
  if negb (ready self)
  then
    (* self.once('ready', self.add.bind(self, torrentId, opts, ontorrent)) *)
    fresh (set_listeners self (ready_listeners self ++ [(next_uid self, torrentId)]))
  else
    let torrent := Torrent_new (toInfoHash magnet parseTorrent) (next_uid self) torrentId in
    let self := fresh (set_torrents self (torrents self ++ [torrent])) in
    if dht self then log self (DhtLookup (t_infoHash torrent)) else self.

(** One listener of 'ready' being called by [emit]: the [once]
    wrapper removes itself, then calls the bound [add]. *)
Definition run_ready_listener (self : Client) (l : nat * value) : Client :=
  let self := set_listeners self (remove_listener (fst l) (ready_listeners self)) in
  add self (snd l).

(** [self.emit('ready')]: the listeners registered at the time of the
    call, oldest first. *)
Definition emit_ready (self : Client) : Client :=
  fold_left run_ready_listener (ready_listeners self) (log self (Emit EvReady)).

(** The callback given to [parallel] by the constructor. *)
Definition bootstrap_cb (self : Client) (err : error) : Client :=
  match err with
  | Some e => log self (Emit (EvError e))
  | None => emit_ready (set_ready self true)
  end.

(** Starting a bootstrap task. *)
Definition start_task (self : Client) (task : BootstrapTask) : Client :=
  match task with
  | TaskPort => log self PortfinderGetPort
  | TaskDht =>
      let self := log (set_dht self true) DhtNew in
      log self (DhtListen (dhtPort self))
  end.

(** The constructor. *)
Definition Client_new (opts : Opts) : Client :=
  let self :=
    {| ready := false;
       torrents := [];
       torrentPort := o_torrentPort opts;
       dhtPort := o_dhtPort opts;
       dht := false;
       trackersEnabled := opt_default true (o_trackers opts);
       ready_listeners := [];
       par := RunParallel.init 0 false;
       par_destroy := RunParallel.init 0 false;
       next_uid := 0;
       trace := [] |} in
  let tasks := bootstrap_tasks opts in
  let self := set_par self (RunParallel.init (List.length tasks) true) in
  match tasks with
  | [] =>
      let '(p, fired) := RunParallel.empty (par self) in
      let self := set_par self p in
      match fired with Some err => bootstrap_cb self err | None => self end
  | _ => fold_left start_task tasks self
  end.

(** A bootstrap task calls its callback. *)
Definition task_done (self : Client) (err : error) : Client :=
  let '(p, fired) := RunParallel.done (par self) err in
  let self := set_par self p in
  match fired with
  | Some e => bootstrap_cb self e
  | None => self
  end.

(** What happens to a client after its construction. *)
Inductive Input : Type :=
| CallAdd (torrentId : value)                    (* client.add(torrentId) *)
| PortfinderCb (err : error) (port : option N) (* callback of portfinder.getPort *)
| DhtOnReady                                     (* the DHT emits 'ready' *)
| DhtOnListening (port : N).                   (* the DHT emits 'listening' *)

Definition step (self : Client) (i : Input) : Client :=
  match i with
  | CallAdd torrentId => add self torrentId
  | PortfinderCb err port => task_done (set_torrentPort self port) err
  | DhtOnReady => task_done self None
  | DhtOnListening port => set_dhtPort self (Some port)
  end.

Definition run (self : Client) (inputs : list Input) : Client :=
  fold_left step inputs self.

(** [Client.prototype.get] and [remove], as in [part_001]. *)
Definition get (self : Client) (torrentId : value) : option Torrent :=
  find_infoHash (toInfoHash magnet parseTorrent torrentId) (torrents self).

Definition remove (self : Client) (torrentId : value) (cb : callback)
  : Completion unit * Client :=
  match get self torrentId with
  | None => (Throw (no_torrent torrentId), self)
  | Some torrent =>
      let self := set_torrents self
                    (splice1 (indexOf torrent (torrents self)) (torrents self)) in
      (Normal tt, log self (TorrentDestroy (t_uid torrent) cb))
  end.

Fixpoint forEach (self : Client) (i : nat) (tasks : list prim) : Completion unit * Client :=
  match tasks with
  | [] => (Normal tt, self)
  | infoHash :: rest =>
      match remove self (VPrim infoHash) (CbTask i) with
      | (Normal _, self') => forEach self' (S i) rest
      | (Throw m, self') => (Throw m, self')
      end
  end.

(** [Client.prototype.destroy] of this revision: the DHT is destroyed
    directly, without a callback, before the task group of the
    torrents is built. *)
Definition destroy (self : Client) (has_cb : bool) : Completion unit * Client :=
  let self := if dht self then log self (DhtDestroy CbNone) else self in
  let tasks := map t_infoHash (torrents self) in
  let self := set_par_destroy self (RunParallel.init (List.length tasks) has_cb) in
  match tasks with
  | [] =>
      let '(p, fired) := RunParallel.empty (par_destroy self) in
      let self := set_par_destroy self p in
      (Normal tt, match fired with Some err => log self (Callback err) | None => self end)
  | _ => forEach self 0 tasks
  end.

End WithParsers.

(** *** Reading a run *)

(** The identifiers of the [add] calls of a run, in the order of the
    calls. *)
Definition adds (inputs : list Input) : list value :=
  flat_map (fun i => match i with CallAdd torrentId => [torrentId] | _ => [] end) inputs.

(** Whether an input is bootstrap task [task] calling its callback. *)
Definition is_report (task : BootstrapTask) (i : Input) : bool :=
  match task, i with
  | TaskPort, PortfinderCb _ _ => true
  | TaskDht, DhtOnReady => true
  | _, _ => false
  end.

(** How often [task] has reported in a run. *)
Definition reports (task : BootstrapTask) (inputs : list Input) : nat :=
  List.length (filter (is_report task) inputs).

Definition task_eqb (a b : BootstrapTask) : bool :=
  match a, b with
  | TaskPort, TaskPort | TaskDht, TaskDht => true
  | _, _ => false
  end.

Definition started (task : BootstrapTask) (tasks : list BootstrapTask) : nat :=
  List.length (filter (task_eqb task) tasks).

(** A run in which every bootstrap task that was started reports at most
    once, and no other does. *)
Definition reports_at_most_once (tasks : list BootstrapTask) (inputs : list Input) : bool :=
  (reports TaskPort inputs <=? started TaskPort tasks)
  && (reports TaskDht inputs <=? started TaskDht tasks).

(** Whether a bootstrap task has reported a failure. *)
Definition is_failure (i : Input) : bool :=
  match i with
  | PortfinderCb (Some _) _ => true
  | _ => false
  end.

Definition failed (inputs : list Input) : bool := existsb is_failure inputs.

(** How often the client has emitted 'ready', and the errors it has
    emitted. *)
Definition ready_count (c : Client) : nat :=
  List.length (filter (fun e => match e with Emit EvReady => true | _ => false end) (trace c)).

Definition errors (c : Client) : list string :=
  flat_map (fun e => match e with Emit (EvError err) => [err] | _ => [] end) (trace c).

(** *** Invariants of a client *)

(** What a step leaves of the barrier: the flag, the task group, the
    'ready' and 'error' emissions. *)
Record calm (c c' : Client) : Prop := {
  calm_ready : ready c' = ready c;
  calm_par : par c' = par c;
  calm_ready_count : ready_count c' = ready_count c;
  calm_errors : errors c' = errors c
}.

(** The parked calls and the registry, read together, are the [add]
    calls so far: parked while not ready, applied once ready. *)
Record fifo (c : Client) (inputs : list Input) : Prop := {
  fifo_order :
    (map t_torrentId (torrents c) ++ map snd (ready_listeners c))%list = adds inputs;
  fifo_ready : ready c = true -> ready_listeners c = [];
  fifo_parked : ready c = false -> torrents c = []
}.

Definition total_reports (inputs : list Input) : nat :=
  reports TaskPort inputs + reports TaskDht inputs.

(** The task group, the flag and the emissions of a client with [n]
    bootstrap tasks, told from the reports so far. *)
Record barrier (n : nat) (c : Client) (inputs : list Input) : Prop := {
  b_pending :
    RunParallel.pending (par c) = (Z.of_nat n - Z.of_nat (total_reports inputs))%Z;
  b_cb : RunParallel.cb_set (par c) = negb (failed inputs) && (total_reports inputs <? n);
  b_ready : ready c = negb (failed inputs) && (total_reports inputs =? n);
  b_count : ready_count c = if ready c then 1 else 0;
  b_errors : List.length (errors c) = if failed inputs then 1 else 0
}.

Definition budget (tasks : list BootstrapTask) : nat :=
  started TaskPort tasks + started TaskDht tasks.

End Part002.

(** ** The discovery coordinator ([lib/peer-discovery.js]) *)
Module PeerDiscovery.

(** A peer id is a string or a Buffer. *)
Inductive PeerId : Type :=
| PidString (s : string)
| PidBuffer (b : list byte).

(** What the [dht] slot can hold: [undefined]/[null], a boolean, or a
    DHT object (a handle). *)
Inductive dhtv : Type :=
| DUndefined
| DBool (b : bool)
| DHandle (h : nat).

(** What the [tracker] slot can hold: the boolean option, or the
    tracker client once it exists. *)
Inductive trackerv : Type :=
| TBool (b : bool)
| THandle (t : nat).

(** The options object; [None] is an absent key.  [extend] copies every
    key of it over the defaults. *)
Record Opts : Type := mkOpts {
  o_peerId : option PeerId;
  o_announce : option (list string);
  o_dht : option dhtv;
  o_externalDHT : option bool;
  o_tracker : option bool;
  o_torrentPort : option N;
  o_dhtPort : option N
}.

Definition no_opts : Opts := mkOpts None None None None None None None.

(** Events the coordinator emits on itself. *)
Inductive Event : Type :=
| Peer (addr : string)
| Warning (err : string)
| DhtAnnounce.

(** Calls into the DHT and the tracker client, and emissions, in
    program order. *)
Inductive Action : Type :=
| ANewDHT (h : nat)
| ADhtListen (h : nat) (port : option N)
| ADhtLookup (h : nat) (infoHash : value)
| ADhtAnnounce (h : nat) (infoHash : value) (port : option N)
| ADhtDestroy (h : nat)
| ANewTracker (t : nat) (infoHash : value)
| ATrackerStart (t : nat)
| ATrackerStop (t : nat)
| ATrackerSetLength (t : nat) (torrent : value)   (* tracker.torrentLength = torrent.length *)
| AEmit (e : Event).

Inductive Emitter : Type :=
| EDht (h : nat)
| ETracker (t : nat).

Inductive EventName : Type := NPeer | NReady | NError.

(** The closures the coordinator registers as listeners. *)
Inductive Handler : Type :=
| HOnPeer                (* self._onPeer.bind(self) *)
| HWarning               (* function (err) { self.emit('warning', err) } *)
| HLookupAndAnnounce.    (* self._dhtLookupAndAnnounce.bind(self) *)

(** The coordinator ([self]) together with the collaborators it talks
    to: the handle counter, which DHTs are [ready], the listeners it has
    registered on them (oldest first) and the actions so far. *)
Record State : Type := mkState {
  peerId : option PeerId;
  announce : list string;
  dht : dhtv;
  externalDHT : bool;
  tracker : trackerv;
  torrentPort : option N;
  infoHash : value;
  torrent : option value;
  next_handle : nat;
  dht_ready : list nat;
  listeners : list (Emitter * EventName * Handler);
  actions : list Action
}.

Definition set_dht (s : State) (d : dhtv) : State :=
  mkState (peerId s) (announce s) d (externalDHT s) (tracker s) (torrentPort s)
          (infoHash s) (torrent s) (next_handle s) (dht_ready s) (listeners s) (actions s).
Definition set_externalDHT (s : State) (b : bool) : State :=
  mkState (peerId s) (announce s) (dht s) b (tracker s) (torrentPort s)
          (infoHash s) (torrent s) (next_handle s) (dht_ready s) (listeners s) (actions s).
Definition set_tracker (s : State) (t : trackerv) : State :=
  mkState (peerId s) (announce s) (dht s) (externalDHT s) t (torrentPort s)
          (infoHash s) (torrent s) (next_handle s) (dht_ready s) (listeners s) (actions s).
Definition set_infoHash (s : State) (v : value) : State :=
  mkState (peerId s) (announce s) (dht s) (externalDHT s) (tracker s) (torrentPort s)
          v (torrent s) (next_handle s) (dht_ready s) (listeners s) (actions s).
Definition set_torrent (s : State) (v : option value) : State :=
  mkState (peerId s) (announce s) (dht s) (externalDHT s) (tracker s) (torrentPort s)
          (infoHash s) v (next_handle s) (dht_ready s) (listeners s) (actions s).
Definition fresh (s : State) : State :=
  mkState (peerId s) (announce s) (dht s) (externalDHT s) (tracker s) (torrentPort s)
          (infoHash s) (torrent s) (S (next_handle s)) (dht_ready s) (listeners s) (actions s).
Definition set_dht_ready (s : State) (r : list nat) : State :=
  mkState (peerId s) (announce s) (dht s) (externalDHT s) (tracker s) (torrentPort s)
          (infoHash s) (torrent s) (next_handle s) r (listeners s) (actions s).
Definition on (s : State) (e : Emitter) (n : EventName) (h : Handler) : State :=
  mkState (peerId s) (announce s) (dht s) (externalDHT s) (tracker s) (torrentPort s)
          (infoHash s) (torrent s) (next_handle s) (dht_ready s)
          (listeners s ++ [(e, n, h)]) (actions s).
Definition act (s : State) (a : Action) : State :=
  mkState (peerId s) (announce s) (dht s) (externalDHT s) (tracker s) (torrentPort s)
          (infoHash s) (torrent s) (next_handle s) (dht_ready s) (listeners s)
          (actions s ++ [a]).

Definition peerId_truthy (p : option PeerId) : bool :=
  match p with
  | None => false
  | Some (PidString s) => negb (String.eqb s "")
  | Some (PidBuffer _) => true
  end.

Definition dht_truthy (d : dhtv) : bool :=
  match d with
  | DUndefined => false
  | DBool b => b
  | DHandle _ => true
  end.

Definition port_truthy (p : option N) : bool :=
  match p with
  | Some 0%N | None => false
  | Some _ => true
  end.

Definition default {A} (d : A) (o : option A) : A :=
  match o with Some a => a | None => d end.

Definition not_a_function (what : string) : string :=
  "TypeError: " ++ what ++ " is not a function".

(** [PeerDiscovery.prototype._onPeer] *)
Definition _onPeer (self : State) (addr : string) : State :=
  act self (AEmit (Peer addr)).

(** [PeerDiscovery.prototype._dhtLookupAndAnnounce] *)
Definition _dhtLookupAndAnnounce (self : State) : Completion unit * State :=
  match dht self with
  | DHandle h => (Normal tt, act self (ADhtLookup h (infoHash self)))
  | _ => (Throw (not_a_function "self.dht.lookup"), self)
  end.

(** The callback given to [dht.lookup]. *)
Definition lookup_cb (self : State) (err : error) : Completion unit * State :=
  if is_error err || negb (port_truthy (torrentPort self))
  then (Normal tt, self)
  else
    match dht self with
    | DHandle h =>
        (Normal tt, act self (ADhtAnnounce h (infoHash self) (torrentPort self)))
    | _ => (Throw (not_a_function "self.dht.announce"), self)
    end.

(** The callback given to [dht.announce]. *)
Definition announce_cb (self : State) : State :=
  act self (AEmit DhtAnnounce).

(** [PeerDiscovery.prototype._createDHT] *)
Definition _createDHT (self : State) (port : option N) : Completion unit * State :=
  match dht self with
  | DBool false => (Normal tt, self)
  | d =>
      let self :=
        if dht_truthy d
        then set_externalDHT self true
        else
          let h := next_handle self in
          let self := act (fresh (set_dht self (DHandle h))) (ANewDHT h) in
          act self (ADhtListen h port) in
      match dht self with
      | DHandle h => (Normal tt, on self (EDht h) NPeer HOnPeer)
      | _ => (Throw (not_a_function "self.dht.on"), self)
      end
  end.

(** [PeerDiscovery.prototype._createTracker] *)
Definition _createTracker (self : State) : State :=
  match tracker self with
  | TBool false => self
  | _ =>
      let descriptor :=
        match torrent self with
        | Some torrent => torrent
        | None => infoHash self
        end in
      let t := next_handle self in
      let self := act (fresh (set_tracker self (THandle t))) (ANewTracker t descriptor) in
      let self := on self (ETracker t) NPeer HOnPeer in
      let self := on self (ETracker t) NError HWarning in
      act self (ATrackerStart t)
  end.

(** The constructor. *)
Definition PeerDiscovery (opts : option Opts) (next : nat) (ready : list nat)
  : Completion unit * State :=
  let opts := default no_opts opts in
  let self :=
    {| peerId := o_peerId opts;
       announce := default [] (o_announce opts);
       dht := default (DBool true) (o_dht opts);
       externalDHT := default false (o_externalDHT opts);
       tracker := TBool (default true (o_tracker opts));
       torrentPort := o_torrentPort opts;
       infoHash := VPrim PUndefined;
       torrent := None;
       next_handle := next;
       dht_ready := ready;
       listeners := [];
       actions := [] |} in
  if negb (peerId_truthy (peerId self))
  then (Throw "peerId required", self)
  else _createDHT self (o_dhtPort opts).

(** [PeerDiscovery.prototype.setTorrent] *)
Definition setTorrent (self : State) (torrent : value) : Completion unit * State :=
  let self :=
    match torrent with
    | VObject h =>
        if truthy h
        then set_infoHash (set_torrent self (Some torrent)) (VPrim h)
        else set_infoHash self torrent
    | _ => set_infoHash self torrent
    end in
  let r :=
    match tracker self with
    | THandle t =>
        (* self.tracker.torrentLength = torrent.length *)
        match torrent with
        | VPrim PUndefined | VPrim PNull =>
            (Throw "TypeError: Cannot read property 'length'", self)
        | _ => (Normal tt, act self (ATrackerSetLength t torrent))
        end
    | TBool _ => (Normal tt, _createTracker self)
    end in
  match r with
  | (Throw m, self) => (Throw m, self)
  | (Normal _, self) =>
      match dht self with
      | DHandle h =>
          if existsb (Nat.eqb h) (dht_ready self)
          then _dhtLookupAndAnnounce self
          else (Normal tt, on self (EDht h) NReady HLookupAndAnnounce)
      | DBool true => (Throw (not_a_function "self.dht.on"), self)
      | _ => (Normal tt, self)
      end
  end.

(** [PeerDiscovery.prototype.stop] *)
Definition stop (self : State) : Completion unit * State :=
  let r :=
    match tracker self with
    | THandle t => (Normal tt, act self (ATrackerStop t))
    | TBool true => (Throw (not_a_function "self.tracker.stop"), self)
    | TBool false => (Normal tt, self)
    end in
  match r with
  | (Throw m, self) => (Throw m, self)
  | (Normal _, self) =>
      if dht_truthy (dht self) && negb (externalDHT self)
      then
        match dht self with
        | DHandle h => (Normal tt, act self (ADhtDestroy h))
        | _ => (Throw (not_a_function "self.dht.destroy"), self)
        end
      else (Normal tt, self)
  end.

Definition emitter_eqb (a b : Emitter) : bool :=
  match a, b with
  | EDht h, EDht k => h =? k
  | ETracker t, ETracker u => t =? u
  | _, _ => false
  end.

Definition name_eqb (a b : EventName) : bool :=
  match a, b with
  | NPeer, NPeer | NReady, NReady | NError, NError => true
  | _, _ => false
  end.

(** A registered closure being called with the event's argument. *)
Definition call (self : State) (h : Handler) (arg : string) : Completion unit * State :=
  match h with
  | HOnPeer => (Normal tt, _onPeer self arg)
  | HWarning => (Normal tt, act self (AEmit (Warning arg)))
  | HLookupAndAnnounce => _dhtLookupAndAnnounce self
  end.

(** A collaborator emits an event: its listeners for that event are
    called oldest first; an exception leaves the loop. *)
Fixpoint call_all (self : State) (hs : list Handler) (arg : string) : Completion unit * State :=
  match hs with
  | [] => (Normal tt, self)
  | h :: rest =>
      match call self h arg with
      | (Normal _, self') => call_all self' rest arg
      | (Throw m, self') => (Throw m, self')
      end
  end.

Definition handlers (self : State) (e : Emitter) (n : EventName) : list Handler :=
  map snd (filter (fun l => emitter_eqb (fst (fst l)) e && name_eqb (snd (fst l)) n)
                  (listeners self)).

Definition deliver (self : State) (e : Emitter) (n : EventName) (arg : string)
  : Completion unit * State :=
  call_all self (handlers self e n) arg.

(** What happens to a coordinator after its construction: calls of its
    methods, events of its collaborators, callbacks coming back. *)
Inductive Input : Type :=
| CallSetTorrent (torrent : value)
| CallStop
| DhtEmitsPeer (h : nat) (addr : string)
| DhtEmitsReady (h : nat)
| TrackerEmitsPeer (t : nat) (addr : string)
| TrackerEmitsError (t : nat) (err : string)
| LookupCb (err : error)
| AnnounceCb.

Definition step (self : State) (i : Input) : Completion unit * State :=
  match i with
  | CallSetTorrent torrent => setTorrent self torrent
  | CallStop => stop self
  | DhtEmitsPeer h addr => deliver self (EDht h) NPeer addr
  | DhtEmitsReady h =>
      deliver (set_dht_ready self (h :: dht_ready self)) (EDht h) NReady ""
  | TrackerEmitsPeer t addr => deliver self (ETracker t) NPeer addr
  | TrackerEmitsError t err => deliver self (ETracker t) NError err
  | LookupCb err => lookup_cb self err
  | AnnounceCb => (Normal tt, announce_cb self)
  end.

(** A run: every input is its own turn of the event loop; what an
    input changed before throwing stays changed. *)
Definition run (self : State) (inputs : list Input) : State :=
  fold_left (fun s i => snd (step s i)) inputs self.

(** The data model's [DiscoverySource] of a coordinator. *)
Inductive DiscoverySource : Type :=
| OwnedDHT (h : nat)
| ExternalDHT (h : nat)
| Disabled.

Definition source (self : State) : DiscoverySource :=
  match dht self with
  | DHandle h => if externalDHT self then ExternalDHT h else OwnedDHT h
  | _ => Disabled
  end.

(** How often [destroy] was called on DHT [h]. *)
Definition destroy_count (h : nat) (self : State) : nat :=
  List.length
    (filter (fun a => match a with ADhtDestroy k => k =? h | _ => false end)
            (actions self)).





Definition is_stop (i : Input) : bool :=
  match i with CallStop => true | _ => false end.

(** *** Invariants of a coordinator *)

(** A step that leaves the coordinator's slots, its listeners and the
    [destroy] calls as they were. *)
Record quiet (s s' : State) : Prop := {
  q_dht : dht s' = dht s;
  q_external : externalDHT s' = externalDHT s;
  q_tracker : tracker s' = tracker s;
  q_listeners : listeners s' = listeners s;
  q_next : next_handle s' = next_handle s;
  q_destroys : forall h, destroy_count h s' = destroy_count h s
}.

(** The slots [setTorrent] and [stop] never write. *)
Definition same_dht (s s' : State) : Prop :=
  dht s' = dht s /\ externalDHT s' = externalDHT s.

Definition tracker_made (s : State) : bool :=
  match tracker s with
  | TBool true => false
  | _ => true
  end.

(** Whether [stop] gets to [self.dht.destroy()] on DHT [h]. *)
Definition stop_destroys (h : nat) (s : State) : bool :=
  tracker_made s &&
  match dht s with
  | DHandle k => negb (externalDHT s) && (k =? h)
  | _ => false
  end.


(** Steps that leave the wiring alone. *)
Record same_wiring (s s' : State) : Prop := {
  sw_dht : dht s' = dht s;
  sw_tracker : tracker s' = tracker s;
  sw_listeners : listeners s' = listeners s;
  sw_next : next_handle s' = next_handle s
}.

End PeerDiscovery.

(** ** Sums of byte counts, as the specification words them *)

(** The running total of [f] over the entries, taken in registry order
    from [acc]. *)
Fixpoint sum_bytes (f : Torrent -> float) (acc : float) (torrents : list Torrent) : float :=
  match torrents with
  | [] => acc
  | torrent :: rest => sum_bytes f (acc + f torrent)%float rest
  end.

(** ** Sample collaborators and inputs

    Concrete stand-ins for the parsers that live outside the repository,
    and the literal inputs of the specification's examples.  They are only
    used to run the definitions above on concrete data. *)
Module Sample.

(** The info hash of the test fixture [leaves.torrent]. *)
Definition leaves_infoHash : list byte :=
  [xd2; x47; x4e; x86; xc9; x5b; x19; xb8; xbc; xfd;
   xb9; x2b; xc1; x2c; x9d; x44; x66; x7c; xfa; x36].

Definition leaves_hex : string := "d2474e86c95b19b8bcfdb92bc12c9d44667cfa36".


(** A magnet parser good enough for [btih] links: the 40 characters
    after the prefix. *)
Definition hashD : string := "dddddddddddddddddddddddddddddddddddddddd".

Definition magnet (uri : string) : value :=
  if String.prefix magnet_prefix uri
  then VObject (PStr (String.substring (String.length magnet_prefix) 40 uri))
  else VObject PUndefined.

(** A metadata parser that knows one file, and otherwise reads hex
    strings, magnet links and parsed torrents the way the resolver
    does. *)
Definition parseTorrent (torrentId : value) : Completion value :=
  match torrentId with
  | VBuffer b =>
      if 20 <? List.length b then Normal (VObject (PStr leaves_hex))
      else Normal (VObject (PStr (toString_hex b)))
  | VPrim (PStr s) =>
      if String.length s =? 40 then Normal (VObject (PStr s)) else Normal (magnet s)
  | VObject h => Normal (VObject h)
  | VPrim _ => Throw "Invalid torrent identifier"
  end.

Definition entry (uid : nat) (h : string) (up down : float) : Torrent :=
  {| t_uid := uid; t_torrentId := VPrim (PStr h); t_infoHash := PStr h;
     t_uploaded := up; t_downloaded := down |}.

Definition hashA : string := "aaaaaaaaaaaaaaaaaaaaaaaaaaaaaaaaaaaaaaaa".
Definition hashB : string := "bbbbbbbbbbbbbbbbbbbbbbbbbbbbbbbbbbbbbbbb".
Definition hashC : string := "cccccccccccccccccccccccccccccccccccccccc".

(** uploaded = {0, 100, 50}, downloaded = {0, 200, 0} *)
Definition three_torrents : list Torrent :=
  [entry 0 hashA 0 0; entry 1 hashB 100 200; entry 2 hashC 50 0].

End Sample.

(** ** Reading hex text back *)

(** The value of a lowercase hex digit. *)
Definition hex_value (c : ascii) : option nat :=
  let n := nat_of_ascii c in
  if (48 <=? n) && (n <=? 57) then Some (n - 48)
  else if (97 <=? n) && (n <=? 102) then Some (n - 87)
  else None.

(** Two digits to a byte: the left inverse of [toString_hex], by which
    the hex text of a Buffer determines its bytes.  Text that is not the
    output of [toString_hex] is not read ([None]). *)
Fixpoint unhex (s : string) : option (list byte) :=
  match s with
  | EmptyString => Some []
  | String a (String b rest) =>
      match hex_value a, hex_value b, unhex rest with
      | Some x, Some y, Some bytes =>
          option_map (fun v => v :: bytes) (Byte.of_nat (16 * x + y))
      | _, _, _ => None
      end
  | String _ EmptyString => None
  end.

(** ** Runs of registry operations, revision [part_001] *)
Module Registry.

(** The calls a user makes on the registry. *)
Inductive Op : Type :=
| OpAdd (torrentId : value)                    (* client.add(torrentId) *)
| OpRemove (torrentId : value) (cb : callback). (* client.remove(torrentId, cb) *)

Section WithParsers.
Variable magnet : string -> value.
Variable parseTorrent : value -> Completion value.

(** One call; what [remove] did before it threw stays (it does nothing
    before it throws). *)
Definition apply (self : Part001.Client) (op : Op) : Part001.Client :=
  match op with
  | OpAdd torrentId => snd (Part001.add magnet parseTorrent self torrentId)
  | OpRemove torrentId cb => snd (Part001.remove magnet parseTorrent self torrentId cb)
  end.

Definition run (self : Part001.Client) (ops : list Op) : Part001.Client :=
  fold_left apply ops self.

End WithParsers.

(** A client right after its construction: [self.torrents = []]. *)
Definition empty : Part001.Client := Part001.mkClient [] 0 [].

(** The entries are different objects, all allocated before the next
    one. *)
Definition well_formed (self : Part001.Client) : Prop :=
  NoDup (map t_uid (Part001.torrents self))
  /\ Forall (fun t => t_uid t < Part001.next_uid self) (Part001.torrents self).

End Registry.

(** ** Reading the effects of a client, revision [part_002] *)
Module Effects002.
Import Part002.

(** The content identifiers the client has asked the DHT to look up,
    oldest first. *)
Definition lookups (c : Client) : list prim :=
  flat_map (fun e => match e with DhtLookup h => [h] | _ => [] end) (trace c).

Definition is_emit (e : Effect) : bool :=
  match e with Emit _ => true | _ => false end.

Definition is_lookup (e : Effect) : bool :=
  match e with DhtLookup _ => true | _ => false end.

(** Calls into a DHT. *)
Definition is_dht_effect (e : Effect) : bool :=
  match e with
  | DhtNew | DhtListen _ | DhtLookup _ | DhtDestroy _ => true
  | _ => false
  end.

(** What a step after the construction may leave behind: the DHT slot
    and the tracker flag stay, the trace grows by emissions and, with a
    DHT, by lookups. *)
Definition settled (c c' : Client) : Prop :=
  dht c' = dht c
  /\ trackersEnabled c' = trackersEnabled c
  /\ exists l, trace c' = (trace c ++ l)%list
               /\ forallb (fun e => is_emit e || (dht c && is_lookup e)) l = true.


End Effects002.

(** ** The coordinator's steps, taken apart *)
Module Coordinator.
Import PeerDiscovery.

(** The single writes the methods and handlers of a coordinator are made
    of, each with the test the code makes before it.  Every step of a
    coordinator is a sequence of these. *)
Inductive update : State -> State -> Prop :=
| u_emit s e :
    update s (act s (AEmit e))
| u_lookup s h :
    dht s = DHandle h ->
    update s (act s (ADhtLookup h (infoHash s)))
| u_announce s h :
    dht s = DHandle h -> port_truthy (torrentPort s) = true ->
    update s (act s (ADhtAnnounce h (infoHash s) (torrentPort s)))
| u_set_length s t v :
    tracker s = THandle t ->
    update s (act s (ATrackerSetLength t v))
| u_tracker_stop s t :
    tracker s = THandle t ->
    update s (act s (ATrackerStop t))
| u_dht_destroy s h :
    dht s = DHandle h -> externalDHT s = false ->
    update s (act s (ADhtDestroy h))
| u_infoHash s v :
    update s (set_infoHash s v)
| u_torrent s v :
    update s (set_torrent s (Some v))
| u_create_tracker s :
    tracker s = TBool true ->
    update s (_createTracker s)
| u_on_ready s h :
    dht s = DHandle h -> existsb (Nat.eqb h) (dht_ready s) = false ->
    update s (on s (EDht h) NReady HLookupAndAnnounce)
| u_dht_ready s h :
    update s (set_dht_ready s (h :: dht_ready s)).

Definition updates : State -> State -> Prop := clos_refl_trans State update.

(** How many tracker clients were constructed. *)
Definition trackers_new (s : State) : nat :=
  List.length
    (filter (fun a => match a with ANewTracker _ _ => true | _ => false end) (actions s)).

(** The content identifiers of the DHT lookups issued, oldest first. *)
Definition lookups (s : State) : list value :=
  flat_map (fun a => match a with ADhtLookup _ v => [v] | _ => [] end) (actions s).

(** Calls into a DHT. *)
Definition is_dht_action (a : Action) : bool :=
  match a with
  | ANewDHT _ | ADhtListen _ _ | ADhtLookup _ _ | ADhtAnnounce _ _ _ | ADhtDestroy _ => true
  | _ => false
  end.

(** A call into DHT [h] that the coordinator with listen port [port] may
    make after its construction: a lookup, a destroy, or an announce of
    [port], which is then a usable port. *)
Definition dht_call_ok (h : nat) (port : option N) (a : Action) : bool :=
  match a with
  | ADhtLookup k _ | ADhtDestroy k => k =? h
  | ADhtAnnounce k _ p =>
      (k =? h) && port_truthy p
      && match p, port with
         | Some x, Some y => N.eqb x y
         | None, None => true
         | _, _ => false
         end
  | ANewDHT _ | ADhtListen _ _ => false
  | _ => true
  end.

(** As many tracker clients were constructed as the [tracker] slot
    holds: one or none. *)
Definition tracker_counted (s : State) : Prop :=
  trackers_new s = match tracker s with THandle _ => 1 | TBool _ => 0 end.

Definition is_setTorrent (i : Input) : bool :=
  match i with CallSetTorrent _ => true | _ => false end.

(** An identifier [setTorrent] can read the length of. *)
Definition defined (v : value) : bool :=
  match v with
  | VPrim PUndefined | VPrim PNull => false
  | _ => true
  end.

(** The [infoHash] slot after [setTorrent(torrent)]. *)
Definition infoHash_of (torrent : value) : value :=
  match torrent with
  | VObject h => if truthy h then VPrim h else torrent
  | _ => torrent
  end.

End Coordinator.

(** * Properties *)

(** ** Values *)

Lemma strict_eq_refl p : strict_eq p p = true.
Proof. destruct p; simpl; auto using String.eqb_refl. Qed.

Lemma strict_eq_true a b : strict_eq a b = true <-> a = b.
Proof.
  split.
  - destruct a, b; simpl; intro H; try discriminate; try reflexivity.
    apply String.eqb_eq in H. now subst.
  - intros ->. apply strict_eq_refl.
Qed.



(** ** Hex rendering of a Buffer *)







(** ** The resolver *)

Section ResolverFacts.
Variable magnet : string -> value.
Variable parseTorrent : value -> Completion value.

Let resolve := toInfoHash magnet parseTorrent.




End ResolverFacts.


(** ** The seed ratio *)

Lemma fold_left_sum_bytes f ts acc :
  fold_left (fun total torrent => (total + f torrent)%float) ts acc = sum_bytes f acc ts.
Proof. revert acc. induction ts as [|t ts IH]; intro acc; simpl; [reflexivity | apply IH]. Qed.

(** C8: [ratio] is 0 when the downloaded total is 0 and the quotient of
    the uploaded total by the downloaded total otherwise; for
    uploaded = {0, 100, 50} and downloaded = {0, 200, 0} it is 0.75. *)
Theorem ratio_spec :
  (forall torrents,
     ratio torrents =
       if (sum_bytes t_downloaded 0 torrents =? 0)%float then 0%float
       else (sum_bytes t_uploaded 0 torrents / sum_bytes t_downloaded 0 torrents)%float)
  /\ map t_uploaded Sample.three_torrents = [0; 100; 50]%float
  /\ map t_downloaded Sample.three_torrents = [0; 200; 0]%float
  /\ ratio Sample.three_torrents = 0.75%float.
Proof.
  split; [| repeat split].
  intro torrents. unfold ratio. now rewrite !fold_left_sum_bytes.
Qed.

(** An empty registry has ratio 0. *)
Lemma ratio_nil : ratio [] = 0%float.
Proof. reflexivity. Qed.

(** ** The registry, revision [part_001] *)

Lemma find_infoHash_none h ts :
  (forall t, In t ts -> t_infoHash t <> h) -> find_infoHash h ts = None.
Proof.
  induction ts as [|t ts IH]; intro H; simpl; [reflexivity|].
  destruct (strict_eq (t_infoHash t) h) eqn:E.
  - apply strict_eq_true in E. exfalso. apply (H t); [now left | exact E].
  - apply IH. intros t' Hin. apply H. now right.
Qed.


Section Part001Facts.
Variable magnet : string -> value.
Variable parseTorrent : value -> Completion value.

(** C6: when no entry of the registry has the content identifier that
    [torrentId] resolves to, [remove] throws the not-found error to its
    caller and leaves the client, its registry included, as it was. *)
Theorem remove_absent_throws (self : Part001.Client) (torrentId : value) (cb : callback) :
  (forall t, In t (Part001.torrents self) ->
             t_infoHash t <> toInfoHash magnet parseTorrent torrentId) ->
  Part001.remove magnet parseTorrent self torrentId cb
    = (Throw (no_torrent torrentId), self)
  /\ Part001.torrents (snd (Part001.remove magnet parseTorrent self torrentId cb))
     = Part001.torrents self.
Proof.
  intro H. unfold Part001.remove, Part001.get.
  rewrite (find_infoHash_none _ _ H). split; reflexivity.
Qed.


End Part001Facts.

Lemma remove_absent_throws_witness :
  let self := Part001.mkClient Sample.three_torrents 3 [] in
  let torrentId := VPrim (PStr Sample.hashD) in
  Part001.remove Sample.magnet Sample.parseTorrent self torrentId CbUser
    = (Throw (no_torrent torrentId), self)
  /\ Part001.torrents (snd (Part001.remove Sample.magnet Sample.parseTorrent self torrentId CbUser))
     = Part001.torrents self.
Proof.
  apply (remove_absent_throws Sample.magnet Sample.parseTorrent).
  intros t Hin. simpl in Hin.
  destruct Hin as [<-|[<-|[<-|[]]]]; vm_compute; discriminate.
Defined.



(** ** The discovery coordinator *)

Module PeerDiscoveryFacts.
Import PeerDiscovery.

Ltac break_match :=
  match goal with
  | |- context [match ?x with _ => _ end] => destruct x eqn:?
  end.

Lemma destroy_count_act h s a :
  destroy_count h (act s a) =
    destroy_count h s + (match a with ADhtDestroy k => if k =? h then 1 else 0 | _ => 0 end).
Proof.
  unfold destroy_count, act. cbn [actions].
  rewrite filter_app, length_app. f_equal.
  destruct a; try reflexivity. cbn. destruct (h0 =? h); reflexivity.
Qed.

Lemma destroy_count_on h s e n x : destroy_count h (on s e n x) = destroy_count h s.
Proof. reflexivity. Qed.

Lemma destroy_count_fresh h s : destroy_count h (fresh s) = destroy_count h s.
Proof. reflexivity. Qed.

Lemma destroy_count_set_tracker h s t :
  destroy_count h (set_tracker s t) = destroy_count h s.
Proof. reflexivity. Qed.

Ltac destroys :=
  repeat first [ rewrite destroy_count_act | rewrite destroy_count_on
               | rewrite destroy_count_fresh | rewrite destroy_count_set_tracker ];
  cbn; try lia.


Lemma handlers_on s e n hd e' n' :
  handlers (on s e n hd) e' n' =
    (handlers s e' n' ++ (if emitter_eqb e e' && name_eqb n n' then [hd] else []))%list.
Proof.
  unfold handlers, on. cbn [listeners]. rewrite filter_app, map_app. cbn.
  destruct (emitter_eqb e e' && name_eqb n n'); reflexivity.
Qed.


Lemma quiet_refl s : quiet s s.
Proof. constructor; reflexivity. Qed.

Lemma quiet_trans s1 s2 s3 : quiet s1 s2 -> quiet s2 s3 -> quiet s1 s3.
Proof.
  intros [] []. constructor; try congruence;
    intro h; etransitivity; eauto.
Qed.

Lemma quiet_act s a : (forall k, a <> ADhtDestroy k) -> quiet s (act s a).
Proof.
  intro H. constructor; try reflexivity.
  intro h. rewrite destroy_count_act. destruct a; try lia. now elim (H h0).
Qed.

Lemma quiet_lookup s : quiet s (snd (_dhtLookupAndAnnounce s)).
Proof.
  unfold _dhtLookupAndAnnounce. destruct (dht s); cbn [snd];
    try apply quiet_refl. apply quiet_act. discriminate.
Qed.

Lemma quiet_call s hd arg : quiet s (snd (call s hd arg)).
Proof.
  destruct hd; cbn [call snd]; try apply quiet_lookup;
    apply quiet_act; discriminate.
Qed.

Lemma quiet_call_all hs : forall s arg, quiet s (snd (call_all s hs arg)).
Proof.
  induction hs as [|hd hs IH]; intros s arg; cbn [call_all].
  - apply quiet_refl.
  - pose proof (quiet_call s hd arg) as Q.
    destruct (call s hd arg) as [[u|m] s1]; cbn [snd] in *; [|exact Q].
    eapply quiet_trans; [exact Q | apply IH].
Qed.

Lemma quiet_deliver s e n arg : quiet s (snd (deliver s e n arg)).
Proof. apply quiet_call_all. Qed.

Lemma quiet_lookup_cb s err : quiet s (snd (lookup_cb s err)).
Proof.
  unfold lookup_cb. repeat break_match; cbn [snd]; try apply quiet_refl.
  apply quiet_act. discriminate.
Qed.

Lemma dht_createTracker s :
  same_dht s (_createTracker s)
  /\ tracker_made (_createTracker s) = true
  /\ forall h, destroy_count h (_createTracker s) = destroy_count h s.
Proof.
  unfold _createTracker, same_dht, tracker_made.
  destruct (tracker s) as [[|]|t] eqn:E; cbn [tracker dht externalDHT];
    rewrite ?E; repeat split; auto.
  all: intro h; destroys.
Qed.

Lemma setTorrent_keeps s torrent :
  let s' := snd (setTorrent s torrent) in
  same_dht s s' /\ tracker_made s' = true
  /\ forall h, destroy_count h s' = destroy_count h s.
Proof.
  unfold setTorrent.
  set (s0 := match torrent with
             | VObject h =>
                 if truthy h
                 then set_infoHash (set_torrent s (Some torrent)) (VPrim h)
                 else set_infoHash s torrent
             | _ => set_infoHash s torrent
             end).
  assert (H0 : quiet s s0).
  { unfold s0. destruct torrent as [p|b|h]; [| |destruct (truthy h)];
      constructor; reflexivity. }
  clearbody s0.
  set (r := match tracker s0 with
            | THandle t =>
                match torrent with
                | VPrim PUndefined | VPrim PNull =>
                    (Throw "TypeError: Cannot read property 'length'", s0)
                | _ => (Normal tt, act s0 (ATrackerSetLength t torrent))
                end
            | TBool _ => (Normal tt, _createTracker s0)
            end).
  assert (H1 : same_dht s0 (snd r) /\ tracker_made (snd r) = true
               /\ forall h, destroy_count h (snd r) = destroy_count h s0).
  { unfold r. destruct (tracker s0) as [b|t] eqn:Et.
    - cbn [snd]. apply dht_createTracker.
    - assert (Hm : tracker_made s0 = true) by (unfold tracker_made; now rewrite Et).
      destruct torrent as [[| |str]|b|h]; cbn [snd]; unfold same_dht;
        repeat split; auto.
      all: try (unfold tracker_made; cbn [tracker act]; now rewrite Et).
      all: intro k; rewrite destroy_count_act; lia. }
  clearbody r. destruct r as [[u|m] s1]; cbn [snd] in *.
  - destruct H0, H1 as [[A1 A2] [A3 A4]]. unfold same_dht.
    assert (Hbase : (dht s1 = dht s /\ externalDHT s1 = externalDHT s)
              /\ tracker_made s1 = true
              /\ forall h, destroy_count h s1 = destroy_count h s).
    { repeat split; try congruence; intro h; now rewrite A4. }
    destruct (dht s1) as [|[|]|h] eqn:Ed; cbn [snd];
      try (rewrite <- Ed in Hbase; exact Hbase).
    rewrite <- Ed in *.
    destruct (existsb (Nat.eqb h) (dht_ready s1)).
    + pose proof (quiet_lookup s1) as []. unfold tracker_made in *.
      repeat split; try congruence;
        try (now rewrite q_tracker1); try (intro k; now rewrite q_destroys1, A4).
    + cbn [snd]. unfold tracker_made in *. cbn [tracker on dht externalDHT].
      repeat split; try congruence; intro k;
        rewrite destroy_count_on; apply (proj2 (proj2 Hbase)).
  - destruct H0, H1 as [[A1 A2] [A3 A4]]. unfold same_dht.
    repeat split; try congruence; intro h; now rewrite A4.
Qed.

Lemma stop_effect s :
  let s' := snd (stop s) in
  same_dht s s' /\ tracker s' = tracker s
  /\ forall h, destroy_count h s' = destroy_count h s + (if stop_destroys h s then 1 else 0).
Proof.
  unfold stop, stop_destroys, tracker_made, same_dht.
  destruct (tracker s) as [[|]|t] eqn:Et; cbn [snd andb dht act externalDHT];
    destruct (dht s) as [|[|]|k] eqn:Ed; cbn [dht_truthy andb snd tracker act];
    try destruct (externalDHT s) eqn:Ee; cbn [negb andb snd tracker act];
    repeat split; auto; try exact Ee; try (intro h; destroys).
Qed.

(** One input: the DHT slot and the ownership flag stay; [destroy] is
    called only by a [stop] that gets there; once the tracker client is
    made it stays made. *)
Lemma step_effect s i :
  let s' := snd (step s i) in
  same_dht s s'
  /\ (tracker_made s = true -> tracker_made s' = true)
  /\ (forall h, destroy_count h s' =
                destroy_count h s + (if is_stop i && stop_destroys h s then 1 else 0)).
Proof.
  assert (Q : forall s', quiet s s' ->
     same_dht s s' /\ (tracker_made s = true -> tracker_made s' = true)
     /\ (forall h, destroy_count h s' = destroy_count h s + 0)).
  { intros s' []. unfold same_dht, tracker_made. rewrite q_tracker0.
    repeat split; auto. intro h. rewrite q_destroys0. lia. }
  destruct i as [tor| |h addr|h|t addr|t err|err|]; cbn [step is_stop andb].
  - pose proof (setTorrent_keeps s tor) as [A [B C]].
    repeat split; try apply A; auto. intro h. rewrite C. lia.
  - pose proof (stop_effect s) as [A [B C]]. unfold tracker_made.
    repeat split; try apply A; auto. now rewrite B.
  - apply Q, quiet_deliver.
  - apply Q. eapply quiet_trans; [|apply quiet_deliver]. constructor; reflexivity.
  - apply Q, quiet_deliver.
  - apply Q, quiet_deliver.
  - apply Q, quiet_lookup_cb.
  - apply Q. cbn [snd]. apply quiet_act. discriminate.
Qed.


Lemma run_cons s x xs : run s (x :: xs) = run (snd (step s x)) xs.
Proof. reflexivity. Qed.




(** *** Construction *)

(** What a construction that returns has done. *)
Lemma constructed opts next ready self :
  PeerDiscovery opts next ready = (Normal tt, self) ->
  let o := default no_opts opts in
  peerId_truthy (o_peerId o) = true
  /\ tracker self = TBool (default true (o_tracker o))
  /\ ((exists h, o_dht o = Some (DHandle h) /\ dht self = DHandle h
                 /\ externalDHT self = true /\ actions self = []
                 /\ next_handle self = next
                 /\ listeners self = [(EDht h, NPeer, HOnPeer)])
      \/ (o_dht o = Some DUndefined /\ dht self = DHandle next
          /\ externalDHT self = default false (o_externalDHT o)
          /\ actions self = [ANewDHT next; ADhtListen next (o_dhtPort o)]
          /\ next_handle self = S next
          /\ listeners self = [(EDht next, NPeer, HOnPeer)])
      \/ (o_dht o = Some (DBool false) /\ dht self = DBool false
          /\ actions self = [] /\ next_handle self = next /\ listeners self = [])).
Proof.
  unfold PeerDiscovery. set (o := default no_opts opts). cbn zeta.
  cbn [peerId]. destruct (peerId_truthy (o_peerId o)) eqn:Ep; cbn [negb];
    [|discriminate].
  unfold _createDHT. cbn [dht].
  destruct (o_dht o) as [[|[|]|h]|] eqn:Ed; cbn [default dht_truthy];
    cbn; intro H; inversion H; subst; clear H; cbn.
  - split; [reflexivity|]. split; [reflexivity|]. right. left. repeat split.
  - split; [reflexivity|]. split; [reflexivity|]. right. right. repeat split.
  - split; [reflexivity|]. split; [reflexivity|]. left. exists h. repeat split.
Qed.


(** An owned DHT comes about when the [dht] option is present and
    [undefined] (or [null]) and the options leave [externalDHT] alone. *)
Lemma owned_when_constructed opts next ready self :
  PeerDiscovery opts next ready = (Normal tt, self) ->
  o_dht (default no_opts opts) = Some DUndefined ->
  default false (o_externalDHT (default no_opts opts)) = false ->
  source self = OwnedDHT next.
Proof.
  intros H Hd He. apply constructed in H as [_ [_ [H|[H|H]]]].
  - destruct H as [k [E _]]. congruence.
  - destruct H as [_ [E1 [E2 _]]]. unfold source. now rewrite E1, E2, He.
  - destruct H as [E _]. congruence.
Qed.

(** With the default [dht: true] the constructor throws: [true] has no
    [on] method. *)
Lemma default_dht_throws p next ready :
  fst (PeerDiscovery (Some (mkOpts (Some (PidBuffer p)) None None None None None None))
         next ready)
  = Throw (not_a_function "self.dht.on").
Proof. reflexivity. Qed.

(** [stop] before the first [setTorrent], with trackers enabled, throws
    before it reaches the DHT: [self.tracker] is still [true]. *)
Lemma stop_before_setTorrent_throws p next ready :
  let self := snd (PeerDiscovery
                     (Some (mkOpts (Some (PidBuffer p)) None (Some DUndefined)
                                   None None None None)) next ready) in
  source self = OwnedDHT next
  /\ fst (stop self) = Throw (not_a_function "self.tracker.stop")
  /\ destroy_count next (snd (stop self)) = 0.
Proof. cbn. repeat split; reflexivity. Qed.


(** C10, as the code has it: the constructor throws ['peerId required'],
    before anything is created or registered, exactly when the [peerId] of
    the options is falsy: absent, or the empty string.  With a truthy
    [peerId] it does not throw that error. *)
Theorem constructor_requires_peerId (opts : option Opts) (next : nat) (ready : list nat) :
  (peerId_truthy (o_peerId (default no_opts opts)) = false ->
     fst (PeerDiscovery opts next ready) = Throw "peerId required"
     /\ actions (snd (PeerDiscovery opts next ready)) = []
     /\ listeners (snd (PeerDiscovery opts next ready)) = []
     /\ next_handle (snd (PeerDiscovery opts next ready)) = next)
  /\ (peerId_truthy (o_peerId (default no_opts opts)) = true ->
       fst (PeerDiscovery opts next ready) <> Throw "peerId required").
Proof.
  unfold PeerDiscovery. set (o := default no_opts opts). cbn zeta. cbn [peerId].
  split; intros ->; cbn [negb].
  - repeat split.
  - unfold _createDHT. cbn [dht].
    destruct (o_dht o) as [[|[|]|h]|]; cbn; discriminate.
Qed.

(** *** Forwarding *)







Lemma stop_same_wiring s : same_wiring s (snd (stop s)).
Proof.
  unfold stop.
  destruct (tracker s) as [[|]|t] eqn:Et; cbn [snd dht externalDHT act];
    destruct (dht s) as [|[|]|k] eqn:Ed; cbn [dht_truthy andb snd];
    try destruct (externalDHT s) eqn:Ee; cbn [negb andb snd];
    constructor; cbn; auto.
Qed.







End PeerDiscoveryFacts.

(** C10 as stated fails: these options supply a [peerId], the empty
    string, and the constructor throws on the check all the same. *)
Lemma empty_peerId_is_refused :
  let opts := PeerDiscovery.mkOpts (Some (PeerDiscovery.PidString "")) None
                (Some (PeerDiscovery.DBool false)) None None None None in
  PeerDiscovery.o_peerId opts <> None
  /\ fst (PeerDiscovery.PeerDiscovery (Some opts) 0 []) = Throw "peerId required".
Proof. split; [discriminate | reflexivity]. Qed.

Lemma constructor_requires_peerId_witness :
  (fst (PeerDiscovery.PeerDiscovery None 0 []) = Throw "peerId required"
   /\ PeerDiscovery.actions (snd (PeerDiscovery.PeerDiscovery None 0 [])) = []
   /\ PeerDiscovery.listeners (snd (PeerDiscovery.PeerDiscovery None 0 [])) = []
   /\ PeerDiscovery.next_handle (snd (PeerDiscovery.PeerDiscovery None 0 [])) = 0)
  /\ fst (PeerDiscovery.PeerDiscovery
            (Some (PeerDiscovery.mkOpts (Some (PeerDiscovery.PidString "-WW0001-abcdefghijkl"))
                     None (Some (PeerDiscovery.DHandle 7)) None None None None)) 0 [])
     <> Throw "peerId required".
Proof.
  split.
  - apply (proj1 (PeerDiscoveryFacts.constructor_requires_peerId None 0 [])).
    reflexivity.
  - apply (proj2 (PeerDiscoveryFacts.constructor_requires_peerId
                    (Some (PeerDiscovery.mkOpts
                             (Some (PeerDiscovery.PidString "-WW0001-abcdefghijkl"))
                             None (Some (PeerDiscovery.DHandle 7)) None None None None))
                    0 [])).
    reflexivity.
Defined.



(** ** The readiness barrier, revision [part_002] *)

Module Part002Facts.
Import Part002.

Section WithParsers.
Variable magnet : string -> value.
Variable parseTorrent : value -> Completion value.

Local Abbreviation add := (Part002.add magnet parseTorrent).
Local Abbreviation run_ready_listener := (Part002.run_ready_listener magnet parseTorrent).
Local Abbreviation emit_ready := (Part002.emit_ready magnet parseTorrent).
Local Abbreviation bootstrap_cb := (Part002.bootstrap_cb magnet parseTorrent).
Local Abbreviation task_done := (Part002.task_done magnet parseTorrent).
Local Abbreviation step := (Part002.step magnet parseTorrent).
Local Abbreviation run := (Part002.run magnet parseTorrent).
Local Abbreviation Client_new := (Part002.Client_new magnet parseTorrent).

Lemma ready_count_log c e :
  ready_count (log c e) =
    ready_count c + match e with Emit EvReady => 1 | _ => 0 end.
Proof.
  unfold ready_count, log. cbn [trace]. rewrite filter_app, length_app.
  f_equal. destruct e as [| | | | | |[]|]; reflexivity.
Qed.

Lemma errors_log c e :
  errors (log c e) =
    (errors c ++ match e with Emit (EvError err) => [err] | _ => [] end)%list.
Proof.
  unfold errors, log. cbn [trace]. rewrite flat_map_app. cbn. now rewrite app_nil_r.
Qed.

Lemma calm_refl c : calm c c.
Proof. constructor; reflexivity. Qed.

Lemma calm_trans a b c : calm a b -> calm b c -> calm a c.
Proof. intros [] []. constructor; congruence. Qed.

Lemma calm_add c torrentId : calm c (add c torrentId).
Proof.
  unfold Part002.add. destruct (ready c) eqn:Er; cbn [negb].
  - destruct (dht _) eqn:Ed.
    + constructor; try reflexivity.
      * rewrite ready_count_log, Nat.add_0_r. reflexivity.
      * rewrite errors_log, app_nil_r. reflexivity.
    + constructor; reflexivity.
  - constructor; reflexivity.
Qed.

Lemma calm_run_ready_listener c l : calm c (run_ready_listener c l).
Proof.
  unfold Part002.run_ready_listener.
  eapply calm_trans; [|apply calm_add]. constructor; reflexivity.
Qed.

Lemma calm_listeners ls : forall c, calm c (fold_left run_ready_listener ls c).
Proof.
  induction ls as [|l ls IH]; intro c; cbn [fold_left]; [apply calm_refl|].
  eapply calm_trans; [apply calm_run_ready_listener | apply IH].
Qed.

(** *** Replaying the parked calls *)

Lemma remove_listener_head l ls : remove_listener (fst l) (l :: ls) = ls.
Proof. cbn. now rewrite Nat.eqb_refl. Qed.

Lemma replay ls : forall c,
  ready c = true -> ready_listeners c = ls ->
  let c' := fold_left run_ready_listener ls c in
  map t_torrentId (torrents c') = (map t_torrentId (torrents c) ++ map snd ls)%list
  /\ ready_listeners c' = [].
Proof.
  induction ls as [|l ls IH]; intros c Hr Hl; cbn [fold_left].
  - cbn. rewrite app_nil_r. auto.
  - set (c1 := run_ready_listener c l).
    assert (H1 : ready c1 = true /\ ready_listeners c1 = ls
                 /\ map t_torrentId (torrents c1)
                    = (map t_torrentId (torrents c) ++ [snd l])%list).
    { unfold c1, Part002.run_ready_listener, Part002.add. cbn [ready set_listeners].
      rewrite Hr. cbn [negb]. rewrite Hl, remove_listener_head.
      destruct (dht _); cbn; rewrite map_app; cbn; auto. }
    destruct H1 as [A [B C]].
    destruct (IH c1 A B) as [D E]. cbn zeta in *. split; [|exact E].
    rewrite D, C, <- app_assoc. reflexivity.
Qed.

Lemma adds_app xs ys : adds (xs ++ ys) = (adds xs ++ adds ys)%list.
Proof. unfold adds. apply flat_map_app. Qed.

Lemma fifo_silent c c' inputs i :
  adds [i] = [] ->
  torrents c' = torrents c -> ready_listeners c' = ready_listeners c ->
  ready c' = ready c ->
  fifo c inputs -> fifo c' (inputs ++ [i]).
Proof.
  intros Hi Ht Hl Hr [F1 F2 F3]. constructor.
  - rewrite adds_app, Hi, app_nil_r, Ht, Hl. exact F1.
  - rewrite Hr, Hl. exact F2.
  - rewrite Hr, Ht. exact F3.
Qed.

Lemma fifo_bootstrap_cb c inputs err :
  fifo c inputs -> fifo (bootstrap_cb c err) inputs.
Proof.
  intros [F1 F2 F3]. destruct err as [e|]; cbn [Part002.bootstrap_cb].
  - constructor; cbn; auto.
  - unfold Part002.emit_ready.
    set (c0 := log (set_ready c true) (Emit EvReady)).
    change (ready_listeners (set_ready c true)) with (ready_listeners c0).
    destruct (replay (ready_listeners c0) c0 eq_refl eq_refl) as [A B]. cbn zeta in *.
    pose proof (calm_listeners (ready_listeners c0) c0) as [].
    constructor.
    + rewrite A, B. cbn. now rewrite app_nil_r.
    + intros _. exact B.
    + rewrite calm_ready0. cbn. discriminate.
Qed.

Lemma fifo_task_done c inputs err :
  fifo c inputs -> fifo (task_done c err) inputs.
Proof.
  intro F. unfold Part002.task_done.
  destruct (RunParallel.done (par c) err) as [p [e|]].
  - apply fifo_bootstrap_cb. destruct F. constructor; cbn; auto.
  - destruct F. constructor; cbn; auto.
Qed.

Lemma fifo_step c inputs i : fifo c inputs -> fifo (step c i) (inputs ++ [i]).
Proof.
  intro F. destruct i as [torrentId|err port| |port]; cbn [Part002.step].
  - destruct F as [F1 F2 F3]. unfold Part002.add.
    destruct (ready c) eqn:Er; cbn [negb].
    + specialize (F2 eq_refl). rewrite F2 in F1.
      assert (H : fifo (fresh (set_torrents c
                  (torrents c ++ [Torrent_new (toInfoHash magnet parseTorrent)
                                               (next_uid c) torrentId])))
                  (inputs ++ [CallAdd torrentId])).
      { constructor; cbn.
        - rewrite adds_app, <- F1, F2, map_app. cbn. now rewrite !app_nil_r.
        - auto.
        - congruence. }
      destruct (dht _); [|exact H].
      destruct H. constructor; cbn in *; auto.
    + constructor; cbn.
      * rewrite adds_app, <- F1, map_app, app_assoc. reflexivity.
      * congruence.
      * auto.
  - apply (fifo_silent (task_done (set_torrentPort c port) err)
             (task_done (set_torrentPort c port) err)); auto.
    apply fifo_task_done. destruct F. constructor; cbn; auto.
  - apply (fifo_silent (task_done c None) (task_done c None)); auto.
    now apply fifo_task_done.
  - apply (fifo_silent c); auto.
Qed.

Lemma client_run_snoc c inputs i : run c (inputs ++ [i]) = step (run c inputs) i.
Proof. unfold Part002.run. now rewrite fold_left_app. Qed.

Lemma fifo_new opts : fifo (Client_new opts) [].
Proof.
  unfold Part002.Client_new, bootstrap_tasks.
  destruct (port_truthy (o_torrentPort opts)), (opt_default true (o_dht opts));
    cbn; constructor; cbn; auto; discriminate.
Qed.

Lemma fifo_run opts inputs : fifo (run (Client_new opts) inputs) inputs.
Proof.
  induction inputs as [|i inputs IH] using rev_ind.
  - apply fifo_new.
  - rewrite client_run_snoc. now apply fifo_step.
Qed.

(** *** The barrier *)

Lemma reports_snoc task inputs i :
  reports task (inputs ++ [i]) = reports task inputs + (if is_report task i then 1 else 0).
Proof.
  unfold reports. rewrite filter_app, length_app. cbn.
  destruct (is_report task i); reflexivity.
Qed.

Lemma failed_snoc inputs i : failed (inputs ++ [i]) = failed inputs || is_failure i.
Proof. unfold failed. rewrite existsb_app. cbn. now rewrite orb_false_r. Qed.

Lemma barrier_calm n c c' inputs i :
  is_report TaskPort i = false -> is_report TaskDht i = false ->
  calm c c' -> barrier n c inputs -> barrier n c' (inputs ++ [i]).
Proof.
  intros Hp Hd [C1 C2 C3 C4] [B1 B2 B3 B4 B5].
  assert (Ht : total_reports (inputs ++ [i]) = total_reports inputs).
  { unfold total_reports. rewrite !reports_snoc, Hp, Hd. lia. }
  assert (Hf : failed (inputs ++ [i]) = failed inputs).
  { rewrite failed_snoc. destruct i as [|[e|] port| |]; try discriminate;
      cbn; apply orb_false_r. }
  constructor; rewrite ?Ht, ?Hf, ?C1, ?C2, ?C3, ?C4; assumption.
Qed.

Lemma emit_ready_effect c :
  let c' := emit_ready c in
  ready c' = ready c /\ par c' = par c
  /\ ready_count c' = S (ready_count c) /\ errors c' = errors c.
Proof.
  unfold Part002.emit_ready.
  destruct (calm_listeners (ready_listeners c) (log c (Emit EvReady))) as [A B C D].
  cbn zeta. rewrite A, B, C, D. repeat split.
  - rewrite ready_count_log. lia.
  - rewrite errors_log. apply app_nil_r.
Qed.

(** What a report does, told from what the task group answers. *)
Lemma task_done_spec c err :
  let r := RunParallel.done (par c) err in
  par (task_done c err) = fst r
  /\ match snd r with
     | None =>
         ready (task_done c err) = ready c
         /\ ready_count (task_done c err) = ready_count c
         /\ errors (task_done c err) = errors c
     | Some (Some e) =>
         ready (task_done c err) = ready c
         /\ ready_count (task_done c err) = ready_count c
         /\ errors (task_done c err) = (errors c ++ [e])%list
     | Some None =>
         ready (task_done c err) = true
         /\ ready_count (task_done c err) = S (ready_count c)
         /\ errors (task_done c err) = errors c
     end.
Proof.
  unfold Part002.task_done.
  destruct (RunParallel.done (par c) err) as [p [[e|]|]]; cbn [fst snd Part002.bootstrap_cb].
  - repeat split; try reflexivity.
    + rewrite ready_count_log. apply Nat.add_0_r.
    + now rewrite errors_log.
  - destruct (emit_ready_effect (set_ready (set_par c p) true)) as [A [B [C D]]].
    cbn zeta in *. rewrite A, B, C, D. repeat split.
  - repeat split.
Qed.

(** A bootstrap task reports, one that had not reported before. *)
Lemma barrier_report n c inputs i err :
  total_reports (inputs ++ [i]) = S (total_reports inputs) ->
  failed (inputs ++ [i]) = failed inputs || is_error err ->
  total_reports inputs < n ->
  barrier n c inputs -> barrier n (task_done c err) (inputs ++ [i]).
Proof.
  intros Ht Hf Hlt [Bp Bc Br Bn Be].
  set (k := total_reports inputs) in *.
  assert (Hk1 : (k <? n) = true) by (apply Nat.ltb_lt; exact Hlt).
  assert (Hk2 : (k =? n) = false) by (apply Nat.eqb_neq; lia).
  rewrite Hk1, andb_true_r in Bc. rewrite Hk2, andb_false_r in Br.
  rewrite Br in Bn.
  destruct (task_done_spec c err) as [Hpar Hobs]. cbn zeta in Hpar, Hobs.
  unfold RunParallel.done in Hpar, Hobs. rewrite Bp, Bc in Hpar, Hobs.
  assert (Hlast : ((Z.of_nat n - Z.of_nat k - 1 =? 0)%Z = true
                   /\ (S k =? n) = true /\ (S k <? n) = false)
                  \/ ((Z.of_nat n - Z.of_nat k - 1 =? 0)%Z = false
                      /\ (S k =? n) = false /\ (S k <? n) = true)).
  { destruct (Z.of_nat n - Z.of_nat k - 1 =? 0)%Z eqn:Ez; [left | right];
      (split; [reflexivity|]).
    - apply Z.eqb_eq in Ez. split; [apply Nat.eqb_eq | apply Nat.ltb_ge]; lia.
    - apply Z.eqb_neq in Ez. split; [apply Nat.eqb_neq | apply Nat.ltb_lt]; lia. }
  destruct Hlast as [[Ez [E1 E2]]|[Ez [E1 E2]]]; rewrite Ez in Hpar, Hobs;
    destruct (failed inputs) eqn:Efl; destruct err as [e|];
    cbn [orb negb is_error fst snd] in Hpar, Hobs;
    destruct Hobs as [O1 [O2 O3]];
    constructor; rewrite ?Hpar, ?O1, ?O2, ?O3, ?Ht, ?Hf, ?Br, ?Bn, ?E1, ?E2, ?length_app;
    cbn [RunParallel.pending RunParallel.cb_set negb andb orb is_error List.length];
    try reflexivity; try lia.
Qed.

Lemma barrier_step tasks c inputs i :
  reports_at_most_once tasks (inputs ++ [i]) = true ->
  barrier (budget tasks) c inputs ->
  barrier (budget tasks) (step c i) (inputs ++ [i]).
Proof.
  intros Hwf B. unfold reports_at_most_once in Hwf.
  apply andb_prop in Hwf as [Hp Hd].
  apply Nat.leb_le in Hp, Hd. rewrite reports_snoc in Hp, Hd.
  destruct i as [torrentId|err port| |port]; cbn [Part002.step].
  - apply (barrier_calm _ c); auto. apply calm_add.
  - cbn [is_report] in Hp, Hd.
    apply (barrier_report _ (set_torrentPort c port)).
    + unfold total_reports. rewrite !reports_snoc. cbn. lia.
    + rewrite failed_snoc. destruct err; reflexivity.
    + unfold total_reports, budget. lia.
    + destruct B. constructor; auto.
  - cbn [is_report] in Hp, Hd.
    apply barrier_report.
    + unfold total_reports. rewrite !reports_snoc. cbn. lia.
    + rewrite failed_snoc. cbn. now rewrite orb_false_r.
    + unfold total_reports, budget. lia.
    + exact B.
  - apply (barrier_calm _ c); auto. constructor; reflexivity.
Qed.

Lemma reports_at_most_once_prefix tasks inputs i :
  reports_at_most_once tasks (inputs ++ [i]) = true ->
  reports_at_most_once tasks inputs = true.
Proof.
  unfold reports_at_most_once. rewrite !reports_snoc. intro H.
  apply andb_prop in H as [Hp Hd]. apply Nat.leb_le in Hp, Hd.
  apply andb_true_intro. split; apply Nat.leb_le; lia.
Qed.

Lemma barrier_new opts :
  barrier (budget (bootstrap_tasks opts)) (Client_new opts) [].
Proof.
  unfold Part002.Client_new, bootstrap_tasks.
  destruct (port_truthy (o_torrentPort opts)), (opt_default true (o_dht opts));
    cbn; constructor; reflexivity.
Qed.

Lemma barrier_run opts inputs :
  reports_at_most_once (bootstrap_tasks opts) inputs = true ->
  barrier (budget (bootstrap_tasks opts)) (run (Client_new opts) inputs) inputs.
Proof.
  induction inputs as [|i inputs IH] using rev_ind; intro Hwf.
  - apply barrier_new.
  - rewrite client_run_snoc. apply barrier_step; [exact Hwf|].
    apply IH. eapply reports_at_most_once_prefix. exact Hwf.
Qed.



End WithParsers.




End Part002Facts.


(** Why a task must report at most once: the callback of the DHT task is
    a plain listener of 'ready', and the task group only counts reports.
    Were the DHT to emit 'ready' twice, the client would be ready with the
    port still outstanding. *)
Lemma barrier_counts_reports :
  let opts := Part002.mkOpts None None None None in
  let inputs := [Part002.DhtOnReady; Part002.DhtOnReady] in
  let c := Part002.run Sample.magnet Sample.parseTorrent
             (Part002.Client_new Sample.magnet Sample.parseTorrent opts) inputs in
  Part002.reports_at_most_once (Part002.bootstrap_tasks opts) inputs = false
  /\ Part002.reports Part002.TaskPort inputs = 0
  /\ Part002.ready c = true.
Proof. cbn zeta. repeat split. Qed.


(** ** Teardown, revision [part_000] *)

Module Part000Facts.
Import Part000.

(** *** The task group *)

(** Once the final callback is used up, no report calls it. *)
Lemma run_schedule_spent (s : schedule) : forall c,
  RunParallel.cb_set (par c) = false ->
  callbacks (run_schedule c s) = callbacks c.
Proof.
  induction s as [|[i err] s IH]; intros c Hc; [reflexivity|].
  cbn [run_schedule fold_left snd]. fold (run_schedule (task_done c err) s).
  assert (H : RunParallel.cb_set (par (task_done c err)) = false
              /\ callbacks (task_done c err) = callbacks c).
  { unfold task_done, RunParallel.done. rewrite Hc.
    destruct (_ || _); cbn; auto. }
  destruct H as [H1 H2]. now rewrite IH, H2.
Qed.

Lemma callbacks_log c e :
  callbacks (log c e) =
    (callbacks c ++ match e with Callback err => [err] | _ => [] end)%list.
Proof.
  unfold callbacks, log. cbn [trace]. rewrite flat_map_app. cbn. now rewrite app_nil_r.
Qed.

(** The join of [run-parallel]: with as many reports outstanding as the
    schedule has, the final callback is called once, at the first failing
    report or else at the last one. *)
Lemma run_schedule_join (s : schedule) : forall c k,
  s <> [] ->
  RunParallel.pending (par c) = Z.of_nat (List.length s) ->
  RunParallel.cb_set (par c) = true ->
  callbacks (run_schedule c (firstn k s)) =
    (callbacks c ++ (if k <? fire_point s then [] else [first_error s]))%list.
Proof.
  induction s as [|[i err] s IH]; intros c k Hne Hp Hc; [congruence|].
  destruct k as [|k].
  - cbn [firstn run_schedule fold_left].
    destruct err; cbn; now rewrite app_nil_r.
  - cbn [firstn run_schedule fold_left snd].
    fold (run_schedule (task_done c err) (firstn k s)).
    unfold task_done, RunParallel.done. rewrite Hp, Hc.
    cbn [List.length]. rewrite Nat2Z.inj_succ.
    replace (Z.succ (Z.of_nat (List.length s)) - 1)%Z with (Z.of_nat (List.length s)) by lia.
    destruct err as [e|]; cbn [is_error fire_point first_error].
    + (* a failure: the callback is called now *)
      rewrite orb_true_r.
      rewrite run_schedule_spent by reflexivity.
      rewrite callbacks_log. reflexivity.
    + rewrite orb_false_r.
      destruct s as [|r s'].
      * (* the last report *)
        cbn [List.length Z.of_nat Z.eqb].
        rewrite run_schedule_spent by reflexivity.
        rewrite callbacks_log. reflexivity.
      * (* reports are outstanding *)
        assert (Hz : (Z.of_nat (List.length (r :: s')) =? 0)%Z = false).
        { apply Z.eqb_neq. cbn [List.length]. lia. }
        rewrite Hz. cbn iota.
        rewrite (IH _ k); [ | discriminate | reflexivity | reflexivity ].
        change (S k <? S (fire_point (r :: s'))) with (k <? fire_point (r :: s')).
        reflexivity.
Qed.

Lemma fire_point_no_error (s : schedule) :
  first_error s = None -> fire_point s = List.length s.
Proof.
  induction s as [|[i [e|]] s IH]; cbn; intro H; try discriminate; auto.
Qed.

Lemma fire_point_bound (s : schedule) : fire_point s <= List.length s.
Proof. induction s as [|[i [e|]] s IH]; cbn; lia. Qed.

(** *** The fan-out *)

Section WithParser.
Variable parseTorrent : value -> Completion value.

Lemma remove_head c t rest i :
  torrents c = t :: rest ->
  resolves_to_itself parseTorrent t ->
  remove parseTorrent c (VPrim (t_infoHash t)) (CbTask i)
  = (Normal tt,
     log (set_torrents c rest) (TorrentDestroy (t_uid t) (CbTask i))).
Proof.
  intros Ht Hr. unfold remove, get. rewrite Hr. cbn [bind].
  rewrite Ht. cbn [find_infoHash]. rewrite strict_eq_refl.
  cbn [indexOf]. rewrite Nat.eqb_refl. reflexivity.
Qed.

(** The loop over the tasks of the torrents: each finds its torrent at
    the head of what is left of the registry. *)
Lemma forEach_torrents ts : forall c i tail,
  torrents c = ts ->
  Forall (resolves_to_itself parseTorrent) ts ->
  forEach parseTorrent c i (map (fun t => TaskRemove (t_infoHash t)) ts ++ tail)
  = forEach parseTorrent
      {| torrents := []; dht := dht c; par := par c; next_uid := next_uid c;
         trace := trace c ++ teardowns i ts |}
      (i + List.length ts) tail.
Proof.
  induction ts as [|t ts IH]; intros c i tail Ht Hall.
  - cbn. rewrite app_nil_r, Nat.add_0_r. destruct c; cbn in *. now subst.
  - inversion Hall as [|? ? Hr Hrest]; subst.
    cbn [map app forEach run_task].
    rewrite (remove_head c t ts i Ht Hr).
    rewrite IH; [|reflexivity|exact Hrest].
    cbn. rewrite <- app_assoc. cbn. f_equal. lia.
Qed.

Lemma parallel_nonempty c tasks has_cb :
  tasks <> [] ->
  parallel parseTorrent c tasks has_cb
  = forEach parseTorrent
      (set_par c (RunParallel.init (List.length tasks) has_cb)) 0 tasks.
Proof. destruct tasks; [congruence | reflexivity]. Qed.

End WithParser.

(** C3, as the code has it: with [n] registered torrents, each found
    by its own content identifier, and a DHT, [destroy] builds [n + 1]
    tasks and starts every one of them: one teardown call per torrent and
    one for the DHT, each with the callback of its own task; the registry
    is empty afterwards.  Whatever the order in which the [n + 1] tasks
    report, and whatever they report, every report is taken and the final
    callback is called exactly once: after the last report when no task
    fails, and otherwise at the first failing report, with its error,
    without waiting for the tasks that have not reported yet. *)
Theorem destroy_fans_out_and_calls_back_once
    (parseTorrent : value -> Completion value) (self : Client) :
  dht self = true ->
  Forall (resolves_to_itself parseTorrent) (torrents self) ->
  let n := List.length (torrents self) in
  exists c',
    destroy parseTorrent self true = (Normal tt, c')
    /\ List.length (destroy_tasks self) = n + 1
    /\ trace c' = (trace self ++ teardowns 0 (torrents self) ++ [DhtDestroy (CbTask n)])%list
    /\ torrents c' = []
    /\ forall s : schedule,
         Permutation (map fst s) (seq 0 (n + 1)) ->
         forall k,
           callbacks (run_schedule c' (firstn k s)) =
             (callbacks self ++ (if k <? fire_point s then [] else [first_error s]))%list.
Proof.
  intros Hd Hall n.
  assert (Hlen : List.length (destroy_tasks self) = n + 1).
  { unfold destroy_tasks. rewrite Hd, length_app, length_map. reflexivity. }
  unfold destroy. rewrite parallel_nonempty.
  2:{ intro E. rewrite E in Hlen. cbn in Hlen. lia. }
  rewrite Hlen. unfold destroy_tasks. rewrite Hd.
  rewrite (forEach_torrents parseTorrent (torrents self)); [|reflexivity|exact Hall].
  cbn [forEach run_task]. eexists. split; [reflexivity|].
  split; [reflexivity|]. split; [cbn; now rewrite <- app_assoc|]. split; [reflexivity|].
  intros s Hperm k.
  assert (Hs : List.length s = n + 1).
  { rewrite <- (length_map fst s), (Permutation_length Hperm). apply length_seq. }
  rewrite run_schedule_join.
  - f_equal. unfold callbacks. cbn [trace log set_par].
    rewrite !flat_map_app.
    assert (Ht : forall i ts, flat_map
              (fun e => match e with Callback err => [err] | _ => [] end)
              (teardowns i ts) = []).
    { intros i ts. revert i. induction ts; intro i; cbn; auto. }
    rewrite Ht. cbn. now rewrite !app_nil_r.
  - intro E. rewrite E in Hs. cbn in Hs. lia.
  - cbn. now rewrite Hs.
  - reflexivity.
Qed.

End Part000Facts.

(** C3 as stated fails: three torrents and a DHT make four tasks; the
    first one to report fails, and the final callback is called at once,
    while three tasks have not reported. *)
Lemma destroy_calls_back_at_first_failure :
  let self := Part000.mkClient Sample.three_torrents true (RunParallel.init 0 false) 3 [] in
  let c' := snd (Part000.destroy Sample.parseTorrent self true) in
  let s := [(0, Some "EBUSY"); (1, None); (2, None); (3, None)] in
  List.length (Part000.destroy_tasks self) = 4
  /\ Part000.callbacks (Part000.run_schedule c' (firstn 1 s)) = [Some "EBUSY"]
  /\ ~ Part000.joins_after_all c' 4 s.
Proof.
  cbn zeta. split; [reflexivity|]. split; [reflexivity|].
  intro H. specialize (H 1). cbn in H.
  assert (Hle : 4 <= 1) by (apply H; discriminate). lia.
Qed.

Lemma destroy_fans_out_and_calls_back_once_witness :
  let self := Part000.mkClient Sample.three_torrents true (RunParallel.init 0 false) 3 [] in
  exists c',
    Part000.destroy Sample.parseTorrent self true = (Normal tt, c')
    /\ List.length (Part000.destroy_tasks self) = 3 + 1
    /\ Part000.trace c' =
         [TorrentDestroy 0 (CbTask 0); TorrentDestroy 1 (CbTask 1);
          TorrentDestroy 2 (CbTask 2); DhtDestroy (CbTask 3)]
    /\ Part000.torrents c' = []
    /\ forall s : Part000.schedule,
         Permutation (map fst s) (seq 0 (3 + 1)) ->
         forall k,
           Part000.callbacks (Part000.run_schedule c' (firstn k s)) =
             ([] ++ (if k <? Part000.fire_point s then [] else [Part000.first_error s]))%list.
Proof.
  intro self.
  apply (Part000Facts.destroy_fans_out_and_calls_back_once Sample.parseTorrent self).
  - reflexivity.
  - repeat constructor.
Defined.

(** In revision [part_002] the DHT is not a task of the group: it is
    destroyed first, without a callback, and three torrents make three
    tasks. *)
Lemma part_002_destroy_leaves_dht_out_of_the_group :
  let self :=
    Part002.mkClient true Sample.three_torrents (Some 6881%N) None true true []
      (RunParallel.init 0 false) (RunParallel.init 0 false) 3 [] in
  let c' := snd (Part002.destroy Sample.magnet Sample.parseTorrent self true) in
  Part002.trace c' =
    [DhtDestroy CbNone; TorrentDestroy 0 (CbTask 0); TorrentDestroy 1 (CbTask 1);
     TorrentDestroy 2 (CbTask 2)]
  /\ RunParallel.pending (Part002.par_destroy c') = 3%Z
  /\ Part002.torrents c' = [].
Proof. cbn zeta. repeat split. Qed.

(** * Further properties of the code *)

(** ** Hex text *)

Lemma unhex_byte_hex b rest :
  unhex (byte_hex b ++ rest) = option_map (cons b) (unhex rest).
Proof. destruct b; cbn; destruct (unhex rest); reflexivity. Qed.

Lemma unhex_toString_hex buf : unhex (toString_hex buf) = Some buf.
Proof.
  induction buf as [|b buf IH]; [reflexivity|].
  cbn [toString_hex]. now rewrite unhex_byte_hex, IH.
Qed.

(** X1: two Buffers of 20 bytes that resolve to the same content
    identifier are the same bytes: the hex text of an info hash names it
    without collisions.  The parsers play no part. *)
Theorem toInfoHash_buffer_injective
    (magnet : string -> value) (parseTorrent : value -> Completion value)
    (a b : list byte) :
  List.length a = 20 -> List.length b = 20 ->
  toInfoHash magnet parseTorrent (VBuffer a) = toInfoHash magnet parseTorrent (VBuffer b) ->
  a = b.
Proof.
  intros Ha Hb. cbn [toInfoHash]. rewrite Ha, Hb. cbn. intro H.
  injection H as H. apply (f_equal unhex) in H.
  rewrite !unhex_toString_hex in H. now injection H.
Qed.

Lemma toInfoHash_buffer_injective_witness :
  Sample.leaves_infoHash = Sample.leaves_infoHash.
Proof.
  apply (toInfoHash_buffer_injective Sample.magnet Sample.parseTorrent
           Sample.leaves_infoHash Sample.leaves_infoHash); reflexivity.
Defined.

(** ** The seed ratio *)

Lemma sum_bytes_zero f ts :
  Forall (fun t => f t = 0%float) ts -> sum_bytes f 0%float ts = 0%float.
Proof.
  induction 1 as [|t ts Ht _ IH]; [reflexivity|].
  cbn [sum_bytes]. rewrite Ht. exact IH.
Qed.

(** X2: a client none of whose torrents has downloaded anything has
    ratio 0, whatever they have uploaded: the guard of the division
    catches the pure seeder. *)
Theorem ratio_nothing_downloaded (torrents : list Torrent) :
  Forall (fun t => t_downloaded t = 0%float) torrents -> ratio torrents = 0%float.
Proof.
  intro H. unfold ratio. rewrite (fold_left_sum_bytes t_downloaded).
  now rewrite (sum_bytes_zero _ _ H).
Qed.

Lemma ratio_nothing_downloaded_witness :
  ratio [Sample.entry 0 Sample.hashA 0 0; Sample.entry 1 Sample.hashC 50 0] = 0%float.
Proof.
  apply ratio_nothing_downloaded. repeat constructor.
Defined.

(** ** The registry, revision [part_001]: finding and removing *)

Lemma find_infoHash_split h ts t :
  find_infoHash h ts = Some t ->
  exists l1 l2, ts = (l1 ++ t :: l2)%list
    /\ t_infoHash t = h
    /\ forall u, In u l1 -> t_infoHash u <> h.
Proof.
  induction ts as [|x ts IH]; cbn [find_infoHash]; [discriminate|].
  destruct (strict_eq (t_infoHash x) h) eqn:E.
  - intro H. injection H as <-. apply strict_eq_true in E.
    exists [], ts. repeat split; auto; intros u [].
  - intro H. destruct (IH H) as [l1 [l2 [E1 [E2 E3]]]].
    exists (x :: l1), l2. subst ts. repeat split; auto.
    intros u [<-|Hu]; [|now apply E3].
    intro Hx. rewrite Hx, strict_eq_refl in E. discriminate.
Qed.

Lemma indexOf_nonneg t ts : (-1 <= indexOf t ts)%Z.
Proof.
  induction ts as [|x ts IH]; cbn [indexOf]; [lia|].
  destruct (t_uid x =? t_uid t); [lia|].
  destruct (indexOf t ts <? 0)%Z eqn:E; [lia|]. apply Z.ltb_ge in E. lia.
Qed.

Lemma indexOf_at t l1 l2 :
  ~ In (t_uid t) (map t_uid l1) ->
  indexOf t (l1 ++ t :: l2) = Z.of_nat (List.length l1).
Proof.
  induction l1 as [|x l1 IH]; intro H; cbn [app indexOf List.length].
  - now rewrite Nat.eqb_refl.
  - cbn [map In] in H.
    destruct (t_uid x =? t_uid t) eqn:E.
    + apply Nat.eqb_eq in E. tauto.
    + rewrite IH by tauto.
      destruct (Z.of_nat (List.length l1) <? 0)%Z eqn:E2.
      * apply Z.ltb_lt in E2. lia.
      * lia.
Qed.

Lemma remove_nth_at {A} (l1 : list A) x l2 :
  remove_nth (List.length l1) (l1 ++ x :: l2) = (l1 ++ l2)%list.
Proof. induction l1 as [|y l1 IH]; cbn; [reflexivity | now rewrite IH]. Qed.

Lemma splice1_at {A} (l1 : list A) x l2 :
  splice1 (Z.of_nat (List.length l1)) (l1 ++ x :: l2) = (l1 ++ l2)%list.
Proof.
  unfold splice1.
  destruct (Z.of_nat (List.length l1) <? 0)%Z eqn:E; [apply Z.ltb_lt in E; lia|].
  rewrite length_app. cbn [List.length].
  rewrite Z.min_l by lia. rewrite Nat2Z.id. apply remove_nth_at.
Qed.

Lemma NoDup_app_left_notin {A} (l1 : list A) x l2 :
  NoDup (l1 ++ x :: l2) -> ~ In x l1.
Proof.
  intros H Hin. apply NoDup_remove_2 in H. apply H. apply in_or_app. now left.
Qed.

Section RegistryFacts.
Variable magnet : string -> value.
Variable parseTorrent : value -> Completion value.

Local Abbreviation get := (Part001.get magnet parseTorrent).
Local Abbreviation add := (Part001.add magnet parseTorrent).
Local Abbreviation remove := (Part001.remove magnet parseTorrent).
Local Abbreviation resolve := (toInfoHash magnet parseTorrent).

(** What [remove] does when [get] finds [t]. *)
Lemma remove_found self torrentId cb t l1 l2 :
  Part001.torrents self = (l1 ++ t :: l2)%list ->
  ~ In (t_uid t) (map t_uid l1) ->
  get self torrentId = Some t ->
  remove self torrentId cb
  = (Normal tt,
     {| Part001.torrents := (l1 ++ l2)%list;
        Part001.next_uid := Part001.next_uid self;
        Part001.trace := (Part001.trace self ++ [TorrentDestroy (t_uid t) cb])%list |}).
Proof.
  intros Ht Hn Hg. unfold Part001.remove. rewrite Hg, Ht.
  now rewrite indexOf_at, splice1_at.
Qed.

(** X3: when the identifier is found, [remove] takes out exactly the
    entry [get] answers, the first one with that content identifier; the
    entries before and after it stay, in their order; that entry's
    [destroy] is called with the caller's callback, and nothing throws. *)
Theorem remove_takes_first_match (self : Part001.Client) (torrentId : value)
    (cb : callback) (t : Torrent) :
  NoDup (map t_uid (Part001.torrents self)) ->
  Part001.get magnet parseTorrent self torrentId = Some t ->
  exists l1 l2,
    Part001.torrents self = (l1 ++ t :: l2)%list
    /\ (forall u, In u l1 -> t_infoHash u <> toInfoHash magnet parseTorrent torrentId)
    /\ Part001.remove magnet parseTorrent self torrentId cb
       = (Normal tt,
          {| Part001.torrents := (l1 ++ l2)%list;
             Part001.next_uid := Part001.next_uid self;
             Part001.trace :=
               (Part001.trace self ++ [TorrentDestroy (t_uid t) cb])%list |}).
Proof.
  intros Hnd Hg. pose proof Hg as Hf. unfold Part001.get in Hf.
  destruct (find_infoHash_split _ _ _ Hf) as [l1 [l2 [E1 [E2 E3]]]].
  exists l1, l2. split; [exact E1|]. split; [exact E3|].
  apply remove_found; auto.
  rewrite E1, map_app in Hnd. cbn [map] in Hnd.
  now apply NoDup_app_left_notin in Hnd.
Qed.



(** *** Identity of the entries *)

Lemma remove_nth_in {A} n (l : list A) x : In x (remove_nth n l) -> In x l.
Proof.
  revert n. induction l as [|y l IH]; intros n H; [destruct n; exact H|].
  destruct n; cbn in H; [now right|]. destruct H as [<-|H]; [now left|].
  right. eapply IH. exact H.
Qed.

Lemma remove_nth_NoDup {A B} (f : A -> B) n (l : list A) :
  NoDup (map f l) -> NoDup (map f (remove_nth n l)).
Proof.
  revert n. induction l as [|y l IH]; intros n H; [destruct n; exact H|].
  cbn [map] in H. inversion H as [|? ? Hy Hl]; subst.
  destruct n; cbn [remove_nth map]; [exact Hl|].
  constructor; [|now apply IH].
  intro Hin. apply Hy. apply in_map_iff in Hin as [z [Hz Hin]].
  apply in_map_iff. exists z. split; [exact Hz|]. eapply remove_nth_in. exact Hin.
Qed.

Lemma well_formed_apply self op :
  Registry.well_formed self -> Registry.well_formed (Registry.apply magnet parseTorrent self op).
Proof.
  intros [Hnd Hlt]. destruct op as [torrentId|torrentId cb]; cbn [Registry.apply].
  - unfold Part001.add, Registry.well_formed. cbn [snd Part001.torrents Part001.next_uid].
    split.
    + rewrite map_app. cbn [map Torrent_new t_uid].
      apply NoDup_app_remove_l with (l := []). cbn.
      apply Permutation_NoDup with (l := Part001.next_uid self :: map t_uid (Part001.torrents self)).
      * apply Permutation_cons_append.
      * constructor; [|exact Hnd].
        intro Hin. apply in_map_iff in Hin as [u [Hu Hin]].
        rewrite Forall_forall in Hlt. specialize (Hlt u Hin). lia.
    + apply Forall_app. split.
      * eapply Forall_impl; [|exact Hlt]. cbn. intros; lia.
      * repeat constructor.
  - unfold Part001.remove.
    destruct (Part001.get magnet parseTorrent self torrentId) as [t|]; cbn [snd];
      [|split; assumption].
    unfold Registry.well_formed, splice1. cbn [Part001.torrents Part001.next_uid].
    split; [now apply remove_nth_NoDup|].
    rewrite Forall_forall in *. intros u Hu. apply Hlt. eapply remove_nth_in. exact Hu.
Qed.

(** X6: whatever is added and removed, starting from the empty registry,
    no two entries are the same object and every entry was allocated
    before the next one will be: [indexOf] always finds the entry [get]
    answered, never another one. *)
Theorem registry_entries_distinct (ops : list Registry.Op) :
  let self := Registry.run magnet parseTorrent Registry.empty ops in
  NoDup (map t_uid (Part001.torrents self))
  /\ Forall (fun t => t_uid t < Part001.next_uid self) (Part001.torrents self)
  /\ forall torrentId t,
       Part001.get magnet parseTorrent self torrentId = Some t ->
       nth_error (Part001.torrents self)
                 (Z.to_nat (indexOf t (Part001.torrents self))) = Some t.
Proof.
  cbn zeta.
  assert (W : Registry.well_formed (Registry.run magnet parseTorrent Registry.empty ops)).
  { unfold Registry.run.
    assert (G : forall c, Registry.well_formed c ->
                Registry.well_formed (fold_left (Registry.apply magnet parseTorrent) ops c)).
    { induction ops as [|op ops IH]; intros c Hc; [exact Hc|].
      cbn [fold_left]. apply IH. now apply well_formed_apply. }
    apply G. split; constructor. }
  destruct W as [Hnd Hlt]. split; [exact Hnd|]. split; [exact Hlt|].
  intros torrentId t Hg. unfold Part001.get in Hg.
  destruct (find_infoHash_split _ _ _ Hg) as [l1 [l2 [E1 [E2 E3]]]].
  rewrite E1 in *. rewrite map_app in Hnd. cbn [map] in Hnd.
  apply NoDup_app_left_notin in Hnd.
  rewrite indexOf_at by exact Hnd. rewrite Nat2Z.id.
  rewrite nth_error_app2 by lia. now rewrite Nat.sub_diag.
Qed.

End RegistryFacts.

(** ** The client, revision [part_002]: after the construction *)

Module Part002More.
Import Part002 Effects002.

Section WithParsers.
Variable magnet : string -> value.
Variable parseTorrent : value -> Completion value.

Local Abbreviation add := (Part002.add magnet parseTorrent).
Local Abbreviation run_ready_listener := (Part002.run_ready_listener magnet parseTorrent).
Local Abbreviation emit_ready := (Part002.emit_ready magnet parseTorrent).
Local Abbreviation bootstrap_cb := (Part002.bootstrap_cb magnet parseTorrent).
Local Abbreviation task_done := (Part002.task_done magnet parseTorrent).
Local Abbreviation step := (Part002.step magnet parseTorrent).
Local Abbreviation run := (Part002.run magnet parseTorrent).
Local Abbreviation Client_new := (Part002.Client_new magnet parseTorrent).

(** *** Readiness stays *)

Lemma ready_step c i : ready c = true -> ready (step c i) = true.
Proof.
  intro H. destruct i as [torrentId|err port| |port]; cbn [Part002.step].
  - destruct (Part002Facts.calm_add magnet parseTorrent c torrentId) as [A _ _ _].
    now rewrite A.
  - pose proof (Part002Facts.task_done_spec magnet parseTorrent
                  (set_torrentPort c port) err) as [_ S]. cbn zeta in S.
    destruct (snd (RunParallel.done _ err)) as [[e|]|]; destruct S as [S _];
      rewrite S; auto.
  - pose proof (Part002Facts.task_done_spec magnet parseTorrent c None) as [_ S].
    cbn zeta in S.
    destruct (snd (RunParallel.done _ None)) as [[e|]|]; destruct S as [S _];
      rewrite S; auto.
  - exact H.
Qed.

Lemma ready_run xs : forall c, ready c = true -> ready (run c xs) = true.
Proof.
  induction xs as [|i xs IH]; intros c H; [exact H|].
  cbn [Part002.run fold_left]. apply IH. now apply ready_step.
Qed.

(** *** What a step leaves behind *)

Lemma settled_refl c : settled c c.
Proof.
  unfold settled. repeat split. exists []. now rewrite app_nil_r.
Qed.

Lemma settled_trans a b c : settled a b -> settled b c -> settled a c.
Proof.
  intros [A1 [A2 [l [A3 A4]]]] [B1 [B2 [m [B3 B4]]]].
  unfold settled. repeat split; try congruence.
  exists (l ++ m)%list. rewrite B3, A3, <- app_assoc. split; [reflexivity|].
  rewrite forallb_app, A4. rewrite A1 in B4. now rewrite B4.
Qed.

Lemma settled_log c e :
  is_emit e || (dht c && is_lookup e) = true -> settled c (log c e).
Proof.
  intro H. unfold settled. repeat split. exists [e]. split; [reflexivity|].
  cbn. now rewrite H.
Qed.

Lemma settled_add c torrentId : settled c (add c torrentId).
Proof.
  unfold Part002.add. destruct (ready c); cbn [negb].
  - destruct (dht (fresh _)) eqn:Ed.
    + eapply settled_trans; [|apply settled_log].
      * unfold settled. repeat split. exists []. now rewrite app_nil_r.
      * rewrite Ed. reflexivity.
    + unfold settled. repeat split. exists []. now rewrite app_nil_r.
  - unfold settled. repeat split. exists []. now rewrite app_nil_r.
Qed.

Lemma settled_listeners ls : forall c, settled c (fold_left run_ready_listener ls c).
Proof.
  induction ls as [|l ls IH]; intro c; cbn [fold_left]; [apply settled_refl|].
  eapply settled_trans; [|apply IH].
  unfold Part002.run_ready_listener.
  eapply settled_trans; [|apply settled_add].
  unfold settled. repeat split. exists []. now rewrite app_nil_r.
Qed.

Lemma settled_bootstrap_cb c err : settled c (bootstrap_cb c err).
Proof.
  destruct err as [e|]; cbn [Part002.bootstrap_cb].
  - now apply settled_log.
  - unfold Part002.emit_ready.
    eapply settled_trans; [|apply settled_listeners].
    eapply settled_trans; [|now apply settled_log].
    unfold settled. repeat split. exists []. now rewrite app_nil_r.
Qed.

Lemma settled_task_done c err : settled c (task_done c err).
Proof.
  unfold Part002.task_done.
  destruct (RunParallel.done (par c) err) as [p [e|]].
  - eapply settled_trans; [|apply settled_bootstrap_cb].
    unfold settled. repeat split. exists []. now rewrite app_nil_r.
  - unfold settled. repeat split. exists []. now rewrite app_nil_r.
Qed.

Lemma settled_step c i : settled c (step c i).
Proof.
  destruct i as [torrentId|err port| |port]; cbn [Part002.step].
  - apply settled_add.
  - eapply settled_trans; [|apply settled_task_done].
    unfold settled. repeat split. exists []. now rewrite app_nil_r.
  - apply settled_task_done.
  - unfold settled. repeat split. exists []. now rewrite app_nil_r.
Qed.

Lemma settled_run xs : forall c, settled c (run c xs).
Proof.
  induction xs as [|i xs IH]; intro c; [apply settled_refl|].
  cbn [Part002.run fold_left]. eapply settled_trans; [apply settled_step | apply IH].
Qed.

(** *** The port *)

Lemma torrentPort_add c torrentId : torrentPort (add c torrentId) = torrentPort c.
Proof.
  unfold Part002.add. destruct (ready c); cbn [negb]; [|reflexivity].
  destruct (dht _); reflexivity.
Qed.

Lemma torrentPort_listeners ls : forall c,
  torrentPort (fold_left run_ready_listener ls c) = torrentPort c.
Proof.
  induction ls as [|l ls IH]; intro c; cbn [fold_left]; [reflexivity|].
  rewrite IH. unfold Part002.run_ready_listener. now rewrite torrentPort_add.
Qed.

Lemma torrentPort_task_done c err : torrentPort (task_done c err) = torrentPort c.
Proof.
  unfold Part002.task_done.
  destruct (RunParallel.done (par c) err) as [p [[e|]|]];
    cbn [Part002.bootstrap_cb]; try reflexivity.
  unfold Part002.emit_ready. now rewrite torrentPort_listeners.
Qed.

Lemma torrentPort_run xs : forall c,
  reports TaskPort xs = 0 -> torrentPort (run c xs) = torrentPort c.
Proof.
  induction xs as [|i xs IH]; intros c H; [reflexivity|].
  cbn [Part002.run fold_left].
  assert (Hi : is_report TaskPort i = false /\ reports TaskPort xs = 0).
  { unfold reports in *. cbn [filter] in H.
    destruct (is_report TaskPort i); [discriminate | auto]. }
  destruct Hi as [Hi Hx]. fold (run (step c i) xs). rewrite IH by exact Hx.
  destruct i as [torrentId|err port| |port]; cbn [Part002.step];
    try discriminate.
  - apply torrentPort_add.
  - apply torrentPort_task_done.
  - reflexivity.
Qed.

(** *** Lookups *)








Lemma new_dht opts : dht (Client_new opts) = opt_default true (o_dht opts).
Proof.
  unfold Part002.Client_new, bootstrap_tasks.
  destruct (port_truthy (o_torrentPort opts)), (opt_default true (o_dht opts));
    reflexivity.
Qed.

End WithParsers.

(** X7: once a client is ready it stays ready, whatever is called and
    whatever its collaborators report afterwards. *)
Theorem ready_is_kept
    (magnet : string -> value) (parseTorrent : value -> Completion value)
    (c : Client) (inputs : list Input) :
  ready c = true -> ready (Part002.run magnet parseTorrent c inputs) = true.
Proof. intro H. now apply ready_run. Qed.

(** X8: when a bootstrap task has failed, the [add] calls stay parked:
    in every run in which no task reports twice, the registry is empty and
    the parked calls are all the calls made so far, in their order. *)
Theorem failed_bootstrap_parks_adds
    (magnet : string -> value) (parseTorrent : value -> Completion value)
    (opts : Opts) (inputs : list Input) :
  reports_at_most_once (bootstrap_tasks opts) inputs = true ->
  failed inputs = true ->
  let c := Part002.run magnet parseTorrent (Part002.Client_new magnet parseTorrent opts)
             inputs in
  ready c = false /\ torrents c = [] /\ map snd (ready_listeners c) = adds inputs.
Proof.
  intros Hwf Hf c.
  destruct (Part002Facts.barrier_run magnet parseTorrent opts inputs Hwf)
    as [_ _ Br _ _].
  destruct (Part002Facts.fifo_run magnet parseTorrent opts inputs) as [F1 _ F3].
  fold c in Br, F1, F3. rewrite Hf in Br. cbn in Br.
  split; [exact Br|]. specialize (F3 Br). split; [exact F3|].
  now rewrite F3 in F1.
Qed.

(** X9: with a fixed [torrentPort] in the options the constructor does
    not ask [portfinder], and in every run in which a task reports only
    when it was started, and then at most once, the port stays the one of
    the options. *)
Theorem fixed_port_is_kept
    (magnet : string -> value) (parseTorrent : value -> Completion value)
    (opts : Opts) (inputs : list Input) :
  port_truthy (o_torrentPort opts) = true ->
  reports_at_most_once (bootstrap_tasks opts) inputs = true ->
  let c := Part002.run magnet parseTorrent (Part002.Client_new magnet parseTorrent opts)
             inputs in
  torrentPort c = o_torrentPort opts /\ ~ In PortfinderGetPort (trace c).
Proof.
  intros Hp Hwf c. split.
  - unfold c. rewrite torrentPort_run.
    + unfold Part002.Client_new, bootstrap_tasks. rewrite Hp.
      destruct (opt_default true (o_dht opts)); reflexivity.
    + unfold reports_at_most_once, bootstrap_tasks in Hwf. rewrite Hp in Hwf.
      apply andb_prop in Hwf as [H _]. apply Nat.leb_le in H.
      destruct (opt_default true (o_dht opts)); cbn in H; lia.
  - destruct (settled_run magnet parseTorrent inputs
                (Part002.Client_new magnet parseTorrent opts))
      as [_ [_ [l [E F]]]].
    fold c in E. rewrite E. intro Hin. apply in_app_or in Hin as [Hin|Hin].
    + revert Hin. unfold Part002.Client_new, bootstrap_tasks. rewrite Hp.
      destruct (opt_default true (o_dht opts)); cbn; intuition discriminate.
    + rewrite forallb_forall in F. specialize (F _ Hin).
      rewrite andb_false_r in F. discriminate.
Qed.

(** X10: with [dht: false] in the options the client never constructs a
    DHT and never calls into one, whatever is added and whatever is
    reported. *)
Theorem disabled_dht_is_never_used
    (magnet : string -> value) (parseTorrent : value -> Completion value)
    (opts : Opts) (inputs : list Input) :
  o_dht opts = Some false ->
  let c := Part002.run magnet parseTorrent (Part002.Client_new magnet parseTorrent opts)
             inputs in
  dht c = false /\ forallb (fun e => negb (is_dht_effect e)) (trace c) = true.
Proof.
  intros Hd c.
  destruct (settled_run magnet parseTorrent inputs
              (Part002.Client_new magnet parseTorrent opts))
    as [D [_ [l [E F]]]].
  fold c in D, E. rewrite new_dht, Hd in D, F. cbn in D, F.
  split; [exact D|]. rewrite E, forallb_app. apply andb_true_intro. split.
  - unfold Part002.Client_new, bootstrap_tasks. rewrite Hd. cbn.
    destruct (port_truthy (o_torrentPort opts)); reflexivity.
  - rewrite forallb_forall in *. intros e He. specialize (F e He).
    rewrite orb_false_r in F. destruct e; try discriminate; reflexivity.
Qed.



End Part002More.

(** ** Teardown: what the task groups do in the other cases *)

Module TeardownMore.

(** *** Revision [part_000] *)

Lemma callbacks_task_done (c : Part000.Client) err :
  let c' := Part000.task_done c err in
  (RunParallel.cb_set (Part000.par c) = false ->
     RunParallel.cb_set (Part000.par c') = false
     /\ Part000.callbacks c' = Part000.callbacks c)
  /\ (RunParallel.cb_set (Part000.par c) = true ->
      (RunParallel.cb_set (Part000.par c') = true
       /\ Part000.callbacks c' = Part000.callbacks c)
      \/ (RunParallel.cb_set (Part000.par c') = false
          /\ Part000.callbacks c' = (Part000.callbacks c ++ [err])%list)).
Proof.
  unfold Part000.task_done, RunParallel.done.
  destruct (_ || _); split; intro H; rewrite H; cbn [Part000.par Part000.set_par Part000.log
    RunParallel.cb_set]; auto.
  right. split; [reflexivity|]. rewrite Part000Facts.callbacks_log. reflexivity.
Qed.

(** X13: the final callback of [destroy] is called at most once,
    whatever the tasks do: report twice, report after the group has
    failed, or report more often than there are tasks; and without a
    callback none is called. *)
Theorem final_callback_at_most_once (s : Part000.schedule) : forall c : Part000.Client,
  exists fired,
    Part000.callbacks (Part000.run_schedule c s) = (Part000.callbacks c ++ fired)%list
    /\ List.length fired <= (if RunParallel.cb_set (Part000.par c) then 1 else 0).
Proof.
  induction s as [|[i err] s IH]; intro c.
  - exists []. cbn. rewrite app_nil_r. split; [reflexivity | lia].
  - cbn [Part000.run_schedule fold_left snd].
    fold (Part000.run_schedule (Part000.task_done c err) s).
    destruct (IH (Part000.task_done c err)) as [fired [E L]].
    destruct (callbacks_task_done c err) as [A B]. cbn zeta in A, B.
    destruct (RunParallel.cb_set (Part000.par c)) eqn:Ec.
    + destruct (B eq_refl) as [[B1 B2]|[B1 B2]]; rewrite B1 in L.
      * exists fired. rewrite E, B2. auto.
      * exists (err :: fired). rewrite E, B2, <- app_assoc. split; [reflexivity|].
        cbn. destruct fired; cbn in *; lia.
    + destruct (A eq_refl) as [A1 A2]. rewrite A1 in L.
      exists fired. rewrite E, A2. auto.
Qed.

Section WithParser.
Variable parseTorrent : value -> Completion value.

(** The loop of the task group up to a torrent that is not found. *)
Lemma forEach_stops t l2 : forall l1 c n tail,
  Part000.torrents c = (l1 ++ t :: l2)%list ->
  Forall (Part000.resolves_to_itself parseTorrent) l1 ->
  Part000.resolve parseTorrent (VPrim (t_infoHash t)) = Normal None ->
  Part000.forEach parseTorrent c n
    (map (fun t0 => Part000.TaskRemove (t_infoHash t0)) l1 ++
     Part000.TaskRemove (t_infoHash t) :: tail)
  = (Throw (no_torrent (VPrim (t_infoHash t))),
     {| Part000.torrents := t :: l2; Part000.dht := Part000.dht c;
        Part000.par := Part000.par c; Part000.next_uid := Part000.next_uid c;
        Part000.trace := (Part000.trace c ++ Part000.teardowns n l1)%list |}).
Proof.
  induction l1 as [|x l1 IH]; intros c n tail Hc Hall Hr.
  - cbn [map app Part000.teardowns Part000.forEach Part000.run_task].
    unfold Part000.remove, Part000.get. rewrite Hr. cbn [bind].
    rewrite app_nil_r. destruct c; cbn in *. now subst.
  - inversion Hall as [|? ? Hx Hrest]; subst.
    cbn [map app Part000.forEach Part000.run_task].
    rewrite (Part000Facts.remove_head parseTorrent c x (l1 ++ t :: l2) n Hc Hx).
    rewrite IH; auto.
    cbn. now rewrite <- app_assoc.
Qed.

(** X14: [destroy] stops at the first torrent that [get] does not find
    by its own content identifier: the exception of [remove] leaves the
    loop of the task group.  The torrents before it are torn down; that
    torrent and the ones after it stay in the registry, untouched; the DHT
    is not destroyed and the final callback is not called. *)
Theorem destroy_stops_at_unfindable_torrent
    (self : Part000.Client) (l1 l2 : list Torrent) (t : Torrent) (has_cb : bool) :
  Part000.torrents self = (l1 ++ t :: l2)%list ->
  Forall (Part000.resolves_to_itself parseTorrent) l1 ->
  Part000.resolve parseTorrent (VPrim (t_infoHash t)) = Normal None ->
  exists c',
    Part000.destroy parseTorrent self has_cb
      = (Throw (no_torrent (VPrim (t_infoHash t))), c')
    /\ Part000.torrents c' = t :: l2
    /\ Part000.trace c' = (Part000.trace self ++ Part000.teardowns 0 l1)%list
    /\ Part000.callbacks c' = Part000.callbacks self.
Proof.
  intros Ht Hall Hr.
  unfold Part000.destroy. rewrite Part000Facts.parallel_nonempty.
  2:{ unfold Part000.destroy_tasks. rewrite Ht, map_app. cbn.
      destruct l1; discriminate. }
  unfold Part000.destroy_tasks. rewrite Ht, map_app. cbn [map]. rewrite <- app_assoc.
  cbn [app]. rewrite (forEach_stops t l2 l1); auto.
  eexists. split; [reflexivity|]. cbn [Part000.torrents Part000.trace Part000.set_par].
  repeat split.
  unfold Part000.callbacks. cbn [Part000.trace]. rewrite flat_map_app.
  assert (Hz : forall i ts, flat_map
            (fun e => match e with Callback err => [err] | _ => [] end)
            (Part000.teardowns i ts) = []).
  { intros i ts. revert i. induction ts; intro i; cbn; auto. }
  rewrite Hz. apply app_nil_r.
Qed.

End WithParser.

(** *** Revision [part_002] *)

Section Destroy002.
Variable magnet : string -> value.
Variable parseTorrent : value -> Completion value.

Lemma forEach_002 ts : forall (c : Part002.Client) i,
  Part002.torrents c = ts ->
  Forall (fun t => toInfoHash magnet parseTorrent (VPrim (t_infoHash t)) = t_infoHash t) ts ->
  exists c',
    Part002.forEach magnet parseTorrent c i (map t_infoHash ts) = (Normal tt, c')
    /\ Part002.torrents c' = []
    /\ Part002.trace c' = (Part002.trace c ++ Part000.teardowns i ts)%list
    /\ Part002.par_destroy c' = Part002.par_destroy c.
Proof.
  induction ts as [|t ts IH]; intros c i Hc Hall.
  - exists c. cbn. rewrite app_nil_r. auto.
  - inversion Hall as [|? ? Ht Hrest]; subst.
    cbn [map Part002.forEach]. unfold Part002.remove, Part002.get.
    rewrite Ht, Hc. cbn [find_infoHash]. rewrite strict_eq_refl.
    cbn [indexOf]. rewrite Nat.eqb_refl.
    change (splice1 0 (t :: ts)) with ts.
    set (c1 := Part002.log (Part002.set_torrents c ts) _).
    destruct (IH c1 (S i) eq_refl Hrest) as [c' [E [T [R P]]]].
    exists c'. rewrite E. repeat split; auto.
    rewrite R. unfold c1. cbn. now rewrite <- app_assoc.
Qed.

(** X15: in revision [part_002], with every torrent found by its own
    content identifier, [destroy] empties the registry and starts one
    teardown per torrent, each with the callback of its own task; the DHT,
    when there is one, is destroyed before that and without a callback, so
    the group the final callback waits for has as many tasks as there are
    torrents, and with no torrent the final callback is called at once. *)
Theorem destroy_002_leaves_dht_out
    (self : Part002.Client) (has_cb : bool) :
  Forall (fun t => toInfoHash magnet parseTorrent (VPrim (t_infoHash t)) = t_infoHash t)
         (Part002.torrents self) ->
  exists c',
    Part002.destroy magnet parseTorrent self has_cb = (Normal tt, c')
    /\ Part002.torrents c' = []
    /\ Part002.trace c' =
         (Part002.trace self
          ++ (if Part002.dht self then [DhtDestroy CbNone] else [])
          ++ Part000.teardowns 0 (Part002.torrents self)
          ++ (match Part002.torrents self with
              | [] => if has_cb then [Callback None] else []
              | _ => []
              end))%list
    /\ RunParallel.pending (Part002.par_destroy c')
       = Z.of_nat (List.length (Part002.torrents self)).
Proof.
  intro Hall. unfold Part002.destroy.
  set (c0 := if Part002.dht self then Part002.log self (DhtDestroy CbNone) else self).
  assert (H0 : Part002.torrents c0 = Part002.torrents self
               /\ Part002.trace c0 = (Part002.trace self ++
                     (if Part002.dht self then [DhtDestroy CbNone] else []))%list).
  { unfold c0. destruct (Part002.dht self); cbn; rewrite ?app_nil_r; auto. }
  clearbody c0. destruct H0 as [T0 R0]. rewrite T0.
  destruct (Part002.torrents self) as [|t ts] eqn:Et.
  - cbn. destruct has_cb; eexists; (split; [reflexivity|]); cbn;
      rewrite R0, ?app_nil_r, <- ?app_assoc; auto.
  - cbn [map]. change (t_infoHash t :: map t_infoHash ts) with (map t_infoHash (t :: ts)).
    set (c1 := Part002.set_par_destroy c0 _).
    destruct (forEach_002 (t :: ts) c1 0) as [c' [E [T [R P]]]]; auto.
    exists c'. rewrite E. repeat split; auto.
    + rewrite R. unfold c1. cbn [Part002.trace Part002.set_par_destroy].
      rewrite R0, app_nil_r, <- app_assoc. reflexivity.
    + rewrite P. unfold c1. cbn. rewrite length_map. lia.
Qed.

End Destroy002.

End TeardownMore.

(** ** The discovery coordinator: reachable states *)

Module CoordinatorFacts.
Import PeerDiscovery Coordinator.

(** *** Every step is a sequence of single writes *)

Lemma updates_step s s' : update s s' -> updates s s'.
Proof. apply rt_step. Qed.

Lemma updates_refl s : updates s s.
Proof. apply rt_refl. Qed.

Lemma updates_trans a b c : updates a b -> updates b c -> updates a c.
Proof. apply rt_trans. Qed.

Lemma updates_lookup s : updates s (snd (_dhtLookupAndAnnounce s)).
Proof.
  unfold _dhtLookupAndAnnounce. destruct (dht s) eqn:E; cbn [snd];
    try apply updates_refl. now apply updates_step, u_lookup.
Qed.

Lemma updates_call s hd arg : updates s (snd (call s hd arg)).
Proof.
  destruct hd; cbn [call snd]; try apply updates_lookup;
    apply updates_step, u_emit.
Qed.

Lemma updates_call_all hs : forall s arg, updates s (snd (call_all s hs arg)).
Proof.
  induction hs as [|hd hs IH]; intros s arg; cbn [call_all]; [apply updates_refl|].
  pose proof (updates_call s hd arg) as U.
  destruct (call s hd arg) as [[u|m] s1]; cbn [snd] in *; [|exact U].
  eapply updates_trans; [exact U | apply IH].
Qed.

Lemma updates_lookup_cb s err : updates s (snd (lookup_cb s err)).
Proof.
  unfold lookup_cb. destruct (is_error err); cbn [orb snd]; [apply updates_refl|].
  destruct (port_truthy (torrentPort s)) eqn:Ep; cbn [negb snd]; [|apply updates_refl].
  destruct (dht s) eqn:Ed; cbn [snd]; try apply updates_refl.
  now apply updates_step, u_announce.
Qed.

Lemma createTracker_disabled s : tracker s = TBool false -> _createTracker s = s.
Proof. unfold _createTracker. now intros ->. Qed.

Lemma updates_setTorrent s torrent : updates s (snd (setTorrent s torrent)).
Proof.
  unfold setTorrent.
  set (s0 := match torrent with
             | VObject h =>
                 if truthy h
                 then set_infoHash (set_torrent s (Some torrent)) (VPrim h)
                 else set_infoHash s torrent
             | _ => set_infoHash s torrent
             end).
  assert (U0 : updates s s0).
  { unfold s0. destruct torrent as [p|b|h]; [| |destruct (truthy h)];
      try (apply updates_step, u_infoHash).
    eapply updates_trans; apply updates_step; [apply u_torrent | apply u_infoHash]. }
  clearbody s0.
  set (r := match tracker s0 with
            | THandle t =>
                match torrent with
                | VPrim PUndefined | VPrim PNull =>
                    (Throw "TypeError: Cannot read property 'length'", s0)
                | _ => (Normal tt, act s0 (ATrackerSetLength t torrent))
                end
            | TBool _ => (Normal tt, _createTracker s0)
            end).
  assert (U1 : updates s0 (snd r)).
  { unfold r. destruct (tracker s0) as [[|]|t] eqn:Et; cbn [snd].
    - now apply updates_step, u_create_tracker.
    - rewrite createTracker_disabled by exact Et. apply updates_refl.
    - destruct torrent as [[| |str]|b|h]; cbn [snd]; try apply updates_refl;
        now apply updates_step, u_set_length. }
  clearbody r. destruct r as [[u|m] s1]; cbn [snd] in *.
  - eapply updates_trans; [exact U0|]. eapply updates_trans; [exact U1|].
    destruct (dht s1) as [|[|]|h] eqn:Ed; cbn [snd]; try apply updates_refl.
    destruct (existsb (Nat.eqb h) (dht_ready s1)) eqn:Er.
    + apply updates_lookup.
    + cbn [snd]. now apply updates_step, u_on_ready.
  - eapply updates_trans; [exact U0 | exact U1].
Qed.

Lemma updates_stop s : updates s (snd (stop s)).
Proof.
  unfold stop.
  destruct (tracker s) as [[|]|t] eqn:Et; cbn [snd]; try apply updates_refl.
  - destruct (dht s) as [|[|]|h] eqn:Ed, (externalDHT s) eqn:Ee;
      cbn [dht_truthy andb negb snd]; try apply updates_refl.
    now apply updates_step, u_dht_destroy.
  - assert (U : updates s (act s (ATrackerStop t)))
      by (now apply updates_step, u_tracker_stop).
    change (dht (act s (ATrackerStop t))) with (dht s).
    change (externalDHT (act s (ATrackerStop t))) with (externalDHT s).
    destruct (dht s) as [|[|]|h] eqn:Ed, (externalDHT s) eqn:Ee;
      cbn [dht_truthy andb negb snd]; try exact U.
    eapply updates_trans; [exact U|]. now apply updates_step, u_dht_destroy.
Qed.

Lemma updates_one s i : updates s (snd (step s i)).
Proof.
  destruct i as [tor| |h addr|h|t addr|t err|err|]; cbn [step].
  - apply updates_setTorrent.
  - apply updates_stop.
  - apply updates_call_all.
  - eapply updates_trans; [apply updates_step, u_dht_ready | apply updates_call_all].
  - apply updates_call_all.
  - apply updates_call_all.
  - apply updates_lookup_cb.
  - cbn [snd]. apply updates_step, u_emit.
Qed.

Lemma updates_run inputs : forall s, updates s (run s inputs).
Proof.
  induction inputs as [|i inputs IH]; intro s; [apply updates_refl|].
  rewrite PeerDiscoveryFacts.run_cons.
  eapply updates_trans; [apply updates_one | apply IH].
Qed.

(** What every single write keeps, it keeps over a run. *)
Lemma kept_over_runs (P : State -> Prop) :
  (forall s s', update s s' -> P s -> P s') ->
  forall s inputs, P s -> P (run s inputs).
Proof.
  intros Hstep s inputs Hs.
  pose proof (updates_run inputs s) as U.
  apply clos_rt_rt1n in U. induction U as [|a b c Hab _ IH]; [exact Hs|].
  apply IH. eapply Hstep; eauto.
Qed.

(** What a single write does to the slots and to the lists. *)
Lemma update_slots s s' :
  update s s' ->
  dht s' = dht s /\ externalDHT s' = externalDHT s /\ torrentPort s' = torrentPort s.
Proof.
  intro U. destruct U; try (repeat split; reflexivity).
  unfold _createTracker. rewrite H. repeat split.
Qed.

Lemma createTracker_made s :
  tracker s = TBool true ->
  tracker (_createTracker s) = THandle (next_handle s)
  /\ actions (_createTracker s)
     = (actions s ++ [ANewTracker (next_handle s)
                        (match torrent s with Some v => v | None => infoHash s end);
                      ATrackerStart (next_handle s)])%list
  /\ listeners (_createTracker s)
     = (listeners s ++ [(ETracker (next_handle s), NPeer, HOnPeer);
                        (ETracker (next_handle s), NError, HWarning)])%list.
Proof.
  intro H. unfold _createTracker. rewrite H. cbn.
  rewrite <- !app_assoc. repeat split.
Qed.

(** The actions a single write appends. *)
Lemma update_actions s s' :
  update s s' ->
  exists l, actions s' = (actions s ++ l)%list
    /\ (forall a, In a l ->
          match a with
          | ANewDHT _ | ADhtListen _ _ => False
          | ADhtLookup h _ | ADhtDestroy h => dht s = DHandle h
          | ADhtAnnounce h _ p =>
              dht s = DHandle h /\ p = torrentPort s /\ port_truthy p = true
          | ANewTracker _ _ | ATrackerStart _ => tracker s = TBool true
          | ATrackerSetLength t _ | ATrackerStop t => tracker s = THandle t
          | AEmit _ => True
          end).
Proof.
  intro U. destruct U.
  all: try (eexists [_]; split; [reflexivity|]; intros a [<-|[]]; auto; fail).
  all: try (exists []; split; [cbn; now rewrite app_nil_r | intros a []]; fail).
  destruct (createTracker_made s H) as [_ [A _]]. eexists. split; [exact A|].
  intros a [<-|[<-|[]]]; exact H.
Qed.

(** *** The tracker client *)

Lemma trackers_new_app s s' l :
  actions s' = (actions s ++ l)%list ->
  trackers_new s' = trackers_new s
    + List.length (filter (fun a => match a with ANewTracker _ _ => true | _ => false end) l).
Proof. unfold trackers_new. intros ->. now rewrite filter_app, length_app. Qed.

Lemma tracker_counted_update s s' : update s s' -> tracker_counted s -> tracker_counted s'.
Proof.
  unfold tracker_counted. intros U H.
  destruct U; try (rewrite (trackers_new_app s _ [_]) by reflexivity; cbn; lia);
    try exact H.
  destruct (createTracker_made s H0) as [T [A _]].
  rewrite (trackers_new_app s _ _ A), T, H, H0. reflexivity.
Qed.

Lemma tracker_kind_update s s' :
  update s s' ->
  tracker s' = tracker s \/ (tracker s = TBool true /\ exists t, tracker s' = THandle t).
Proof.
  intro U. destruct U; try (left; reflexivity).
  right. split; [assumption|]. destruct (createTracker_made s H) as [T _]. eauto.
Qed.

Lemma made_after_setTorrent inputs : forall s,
  existsb is_setTorrent inputs = true \/ tracker_made s = true ->
  tracker_made (run s inputs) = true.
Proof.
  induction inputs as [|i inputs IH]; intros s H.
  - destruct H as [H|H]; [discriminate | exact H].
  - rewrite PeerDiscoveryFacts.run_cons. apply IH.
    pose proof (PeerDiscoveryFacts.step_effect s i) as [_ [K _]]. cbn zeta in K.
    destruct H as [H|H]; [|right; now apply K].
    cbn [existsb] in H. apply orb_prop in H as [H|H]; [|now left].
    right. destruct i as [tor| | | | | | |]; try discriminate. cbn [step].
    now destruct (PeerDiscoveryFacts.setTorrent_keeps s tor) as [_ [M _]].
Qed.

(** X16: a coordinator constructs at most one tracker client, however
    often [setTorrent] is called; none when trackers are switched off; and
    exactly one once [setTorrent] has been called with trackers on. *)
Theorem tracker_client_is_made_once
    (opts : option Opts) (next : nat) (ready : list nat) (self : State)
    (inputs : list Input) :
  PeerDiscovery opts next ready = (Normal tt, self) ->
  let s := run self inputs in
  trackers_new s <= 1
  /\ (default true (o_tracker (default no_opts opts)) = false -> trackers_new s = 0)
  /\ (default true (o_tracker (default no_opts opts)) = true ->
      existsb is_setTorrent inputs = true -> trackers_new s = 1).
Proof.
  intros H s.
  pose proof (PeerDiscoveryFacts.constructed _ _ _ _ H) as [_ [Ht Hc]]. cbn zeta in Ht, Hc.
  assert (C0 : tracker_counted self).
  { unfold tracker_counted, trackers_new. rewrite Ht.
    destruct Hc as [[h [_ [_ [_ [-> _]]]]]|[[_ [_ [_ [-> _]]]]|[_ [_ [-> _]]]]];
      reflexivity. }
  assert (C : tracker_counted s)
    by (apply (kept_over_runs tracker_counted tracker_counted_update); exact C0).
  unfold tracker_counted in C.
  split; [rewrite C; destruct (tracker s); lia|]. split.
  - intro Hoff.
    assert (K : tracker s = TBool false).
    { apply (kept_over_runs (fun x => tracker x = TBool false)).
      - intros a b U Ha. destruct (tracker_kind_update a b U) as [E|[E _]]; congruence.
      - now rewrite Ht, Hoff. }
    now rewrite C, K.
  - intros Hon Hset.
    assert (K : tracker s <> TBool false).
    { apply (kept_over_runs (fun x => tracker x <> TBool false)).
      - intros a b U Ha. destruct (tracker_kind_update a b U) as [E|[_ [t E]]]; congruence.
      - rewrite Ht, Hon. discriminate. }
    pose proof (made_after_setTorrent inputs self (or_introl Hset)) as M.
    fold s in M. unfold tracker_made in M. rewrite C.
    destruct (tracker s) as [[|]|t]; try discriminate; congruence.
Qed.

(** *** Calls into the DHT *)

Lemma updates_actions s s' :
  updates s s' ->
  dht s' = dht s /\ torrentPort s' = torrentPort s
  /\ exists l, actions s' = (actions s ++ l)%list
       /\ forall a, In a l ->
            match a with
            | ANewDHT _ | ADhtListen _ _ => False
            | ADhtLookup h _ | ADhtDestroy h => dht s = DHandle h
            | ADhtAnnounce h _ p =>
                dht s = DHandle h /\ p = torrentPort s /\ port_truthy p = true
            | _ => True
            end.
Proof.
  intro U. apply clos_rt_rt1n in U. induction U as [s|s b c Hab _ IH].
  - repeat split. exists []. split; [now rewrite app_nil_r | intros a []].
  - destruct (update_slots _ _ Hab) as [D [_ P]].
    destruct (update_actions _ _ Hab) as [l1 [A1 F1]].
    destruct IH as [D2 [P2 [l2 [A2 F2]]]].
    split; [congruence|]. split; [congruence|].
    exists (l1 ++ l2)%list. split; [rewrite A2, A1; now rewrite app_assoc|].
    intros a Hin. apply in_app_or in Hin as [Hin|Hin].
    + specialize (F1 a Hin). destruct a; auto.
    + specialize (F2 a Hin). rewrite D, P in F2. exact F2.
Qed.

(** X17: after its construction a coordinator calls into no DHT but the
    one in its [dht] slot, constructs no further DHT, and announces
    nothing but its own listen port, and only when that port is usable
    (set and not 0). *)
Theorem dht_calls_stay_on_own_dht (s : State) (h : nat) (inputs : list Input) :
  dht s = DHandle h ->
  exists l,
    actions (run s inputs) = (actions s ++ l)%list
    /\ forallb (dht_call_ok h (torrentPort s)) l = true.
Proof.
  intro Hd.
  destruct (updates_actions s _ (updates_run inputs s)) as [_ [_ [l [A F]]]].
  exists l. split; [exact A|]. apply forallb_forall. intros a Hin.
  specialize (F a Hin). rewrite Hd in F.
  destruct a; cbn [dht_call_ok]; try reflexivity; try contradiction.
  - injection F as ->. apply Nat.eqb_refl.
  - destruct F as [F1 [F2 F3]]. injection F1 as ->. rewrite Nat.eqb_refl, F3, F2.
    cbn. destruct (torrentPort s); [apply N.eqb_refl | reflexivity].
  - injection F as ->. apply Nat.eqb_refl.
Qed.

(** X18: a coordinator constructed with [dht: false] never has a DHT and
    never calls into one, whatever is called, whatever arrives. *)
Theorem disabled_dht_is_left_alone
    (opts : option Opts) (next : nat) (ready : list nat) (self : State)
    (inputs : list Input) :
  PeerDiscovery opts next ready = (Normal tt, self) ->
  o_dht (default no_opts opts) = Some (DBool false) ->
  dht (run self inputs) = DBool false
  /\ forallb (fun a => negb (is_dht_action a)) (actions (run self inputs)) = true.
Proof.
  intros H Hd.
  pose proof (PeerDiscoveryFacts.constructed _ _ _ _ H) as [_ [_ Hc]]. cbn zeta in Hc.
  assert (H0 : dht self = DBool false /\ actions self = []).
  { destruct Hc as [[h [E _]]|[[E _]|[_ [E1 [E2 _]]]]]; try congruence. auto. }
  destruct H0 as [D0 A0].
  destruct (updates_actions self _ (updates_run inputs self)) as [D [_ [l [A F]]]].
  split; [congruence|]. rewrite A, A0. cbn [app].
  apply forallb_forall. intros a Hin. specialize (F a Hin). rewrite D0 in F.
  destruct a; cbn; try reflexivity; try contradiction; try discriminate.
  destruct F; discriminate.
Qed.

(** *** Listeners *)

Lemma update_listeners s s' :
  update s s' -> exists l, listeners s' = (listeners s ++ l)%list.
Proof.
  intro U. destruct U; try (exists []; cbn; now rewrite app_nil_r).
  - destruct (createTracker_made s H) as [_ [_ L]]. eauto.
  - eexists. reflexivity.
Qed.

(** X19: a coordinator never removes a listener: after any run the
    listeners it had registered are still registered, in their order, in
    front of the ones it has added; [stop] in particular unsubscribes
    from nothing. *)
Theorem listeners_are_never_removed (s : State) (inputs : list Input) :
  (exists l, listeners (run s inputs) = (listeners s ++ l)%list)
  /\ listeners (snd (stop s)) = listeners s.
Proof.
  split.
  - pose proof (updates_run inputs s) as U. apply clos_rt_rt1n in U.
    induction U as [s|s b c Hab _ [l2 IH]].
    + exists []. now rewrite app_nil_r.
    + destruct (update_listeners _ _ Hab) as [l1 E].
      exists (l1 ++ l2)%list. rewrite IH, E. now rewrite app_assoc.
  - now destruct (PeerDiscoveryFacts.stop_same_wiring s).
Qed.

(** *** [stop] *)

(** X20: [stop] is not idempotent on an owned DHT: once the tracker
    client exists (or trackers are off), every further call of [stop]
    calls [destroy] on the DHT again. *)
Theorem every_stop_destroys_again (s : State) (h n : nat) :
  source s = OwnedDHT h -> tracker_made s = true ->
  destroy_count h (run s (repeat CallStop n)) = destroy_count h s + n.
Proof.
  revert s. induction n as [|n IH]; intros s Hs Ht; [cbn; lia|].
  cbn [repeat]. rewrite PeerDiscoveryFacts.run_cons. cbn [step].
  pose proof (PeerDiscoveryFacts.stop_effect s) as [[D E] [T C]]. cbn zeta in *.
  rewrite IH.
  - rewrite C. unfold stop_destroys. rewrite Ht. unfold source in Hs.
    destruct (dht s); try discriminate. destruct (externalDHT s); [discriminate|].
    injection Hs as ->. cbn. rewrite Nat.eqb_refl. lia.
  - unfold source in *. now rewrite D, E.
  - unfold tracker_made in *. now rewrite T.
Qed.

Lemma tracker_kept_without_setTorrent inputs : forall s,
  existsb is_setTorrent inputs = false -> tracker (run s inputs) = tracker s.
Proof.
  induction inputs as [|i inputs IH]; intros s H; [reflexivity|].
  cbn [existsb] in H. apply orb_false_elim in H as [Hi Hr].
  rewrite PeerDiscoveryFacts.run_cons, IH by exact Hr.
  destruct i as [tor| |k addr|k|t addr|t err|err|]; try discriminate; cbn [step].
  - now destruct (PeerDiscoveryFacts.stop_effect s) as [_ [T _]].
  - now destruct (PeerDiscoveryFacts.quiet_deliver s (EDht k) NPeer addr).
  - now destruct (PeerDiscoveryFacts.quiet_deliver
                    (set_dht_ready s (k :: dht_ready s)) (EDht k) NReady "").
  - now destruct (PeerDiscoveryFacts.quiet_deliver s (ETracker t) NPeer addr).
  - now destruct (PeerDiscoveryFacts.quiet_deliver s (ETracker t) NError err).
  - now destruct (PeerDiscoveryFacts.quiet_lookup_cb s err).
  - reflexivity.
Qed.

(** X21: with trackers on, [stop] before the first [setTorrent] throws a
    [TypeError] ([self.tracker] is still [true]) and does nothing: no
    tracker is stopped and a DHT the coordinator owns is not destroyed. *)
Theorem stop_before_start_throws
    (opts : option Opts) (next : nat) (ready : list nat) (self : State)
    (inputs : list Input) :
  PeerDiscovery opts next ready = (Normal tt, self) ->
  default true (o_tracker (default no_opts opts)) = true ->
  existsb is_setTorrent inputs = false ->
  stop (run self inputs)
  = (Throw (not_a_function "self.tracker.stop"), run self inputs).
Proof.
  intros H Hon Hno.
  pose proof (PeerDiscoveryFacts.constructed _ _ _ _ H) as [_ [Ht _]]. cbn zeta in Ht.
  pose proof (tracker_kept_without_setTorrent inputs self Hno) as K.
  unfold stop. now rewrite K, Ht, Hon.
Qed.

(** *** Construction *)

(** X22: with a [peerId] and the default [dht: true] (or an explicit
    [true]) the constructor throws a [TypeError]: [true] is taken for a
    DHT handed in, and has no [on] method.  Nothing was constructed or
    registered before. *)
Theorem boolean_dht_is_refused (opts : option Opts) (next : nat) (ready : list nat) :
  peerId_truthy (o_peerId (default no_opts opts)) = true ->
  default (DBool true) (o_dht (default no_opts opts)) = DBool true ->
  fst (PeerDiscovery opts next ready) = Throw (not_a_function "self.dht.on")
  /\ externalDHT (snd (PeerDiscovery opts next ready)) = true
  /\ actions (snd (PeerDiscovery opts next ready)) = []
  /\ listeners (snd (PeerDiscovery opts next ready)) = []
  /\ next_handle (snd (PeerDiscovery opts next ready)) = next.
Proof.
  intros Hp Hd. unfold PeerDiscovery. cbn zeta. cbn [peerId]. rewrite Hp. cbn [negb].
  unfold _createDHT. cbn [dht]. rewrite Hd. cbn. repeat split.
Qed.

(** *** Lookups that wait for the DHT *)

Lemma lookups_act s a :
  lookups (act s a)
  = (lookups s ++ match a with ADhtLookup _ v => [v] | _ => [] end)%list.
Proof.
  unfold lookups, act. cbn [actions]. rewrite flat_map_app. cbn. now rewrite app_nil_r.
Qed.

Lemma handlers_createTracker s h n :
  handlers (_createTracker s) (EDht h) n = handlers s (EDht h) n.
Proof.
  unfold _createTracker. destruct (tracker s) as [[|]|t]; try reflexivity;
    unfold handlers; cbn [listeners act on fresh set_tracker];
    rewrite !filter_app, !map_app; cbn; now rewrite !app_nil_r.
Qed.

Lemma lookups_createTracker s : lookups (_createTracker s) = lookups s.
Proof.
  unfold _createTracker. destruct (tracker s) as [[|]|t]; try reflexivity;
    rewrite lookups_act; cbn [app]; rewrite app_nil_r;
    change (lookups (on (on ?x _ _ _) _ _ _)) with (lookups x);
    unfold lookups; cbn [actions act fresh set_tracker on];
    rewrite flat_map_app; cbn; now rewrite app_nil_r.
Qed.

(** [setTorrent] on a coordinator whose DHT is not ready. *)
Lemma setTorrent_waits s h torrent :
  dht s = DHandle h -> existsb (Nat.eqb h) (dht_ready s) = false ->
  defined torrent = true ->
  let r := setTorrent s torrent in
  fst r = Normal tt
  /\ dht (snd r) = DHandle h
  /\ dht_ready (snd r) = dht_ready s
  /\ handlers (snd r) (EDht h) NReady
     = (handlers s (EDht h) NReady ++ [HLookupAndAnnounce])%list
  /\ lookups (snd r) = lookups s
  /\ infoHash (snd r) = infoHash_of torrent.
Proof.
  intros Hd Hr Hdef. unfold setTorrent.
  set (s0 := match torrent with
             | VObject p =>
                 if truthy p
                 then set_infoHash (set_torrent s (Some torrent)) (VPrim p)
                 else set_infoHash s torrent
             | _ => set_infoHash s torrent
             end).
  assert (H0 : dht s0 = DHandle h /\ dht_ready s0 = dht_ready s
               /\ listeners s0 = listeners s /\ actions s0 = actions s
               /\ tracker s0 = tracker s /\ infoHash s0 = infoHash_of torrent).
  { unfold s0, infoHash_of. destruct torrent as [p|b|p]; [| |destruct (truthy p)];
      cbn; auto 10. }
  clearbody s0. destruct H0 as [D0 [R0 [L0 [A0 [T0 I0]]]]].
  set (s1 := match tracker s0 with
             | THandle t => act s0 (ATrackerSetLength t torrent)
             | TBool _ => _createTracker s0
             end).
  assert (E1 : match tracker s0 with
               | THandle t =>
                   match torrent with
                   | VPrim PUndefined | VPrim PNull =>
                       (Throw "TypeError: Cannot read property 'length'", s0)
                   | _ => (Normal tt, act s0 (ATrackerSetLength t torrent))
                   end
               | TBool _ => (Normal tt, _createTracker s0)
               end = (Normal tt, s1)).
  { unfold s1. destruct (tracker s0); [reflexivity|].
    destruct torrent as [[| |str]|b|p]; try discriminate; reflexivity. }
  rewrite E1.
  assert (H1 : dht s1 = DHandle h /\ dht_ready s1 = dht_ready s
               /\ handlers s1 (EDht h) NReady = handlers s (EDht h) NReady
               /\ lookups s1 = lookups s /\ infoHash s1 = infoHash_of torrent).
  { unfold s1. destruct (tracker s0) as [b|t] eqn:Et.
    - rewrite handlers_createTracker, lookups_createTracker.
      unfold handlers, lookups. rewrite L0, A0.
      unfold _createTracker. rewrite Et. destruct b; cbn; auto.
    - rewrite lookups_act. unfold handlers, lookups. cbn. rewrite L0, A0, app_nil_r.
      auto. }
  clearbody s1. destruct H1 as [D1 [R1 [H1 [K1 I1]]]].
  rewrite D1, R1, Hr. cbn [fst snd].
  rewrite PeerDiscoveryFacts.handlers_on. cbn [emitter_eqb name_eqb].
  rewrite Nat.eqb_refl. cbn [andb]. rewrite H1.
  repeat split; auto.
Qed.

Lemma last_nonempty {A} (l : list A) : forall x d d',
  last (x :: l) d = last (x :: l) d'.
Proof.
  induction l as [|y l IH]; intros x d d'; [reflexivity|].
  change (last (y :: l) d = last (y :: l) d'). apply IH.
Qed.

Lemma setTorrents_wait ts : forall s h,
  dht s = DHandle h -> existsb (Nat.eqb h) (dht_ready s) = false ->
  forallb defined ts = true ->
  let s' := run s (map CallSetTorrent ts) in
  dht s' = DHandle h
  /\ handlers s' (EDht h) NReady
     = (handlers s (EDht h) NReady ++ repeat HLookupAndAnnounce (List.length ts))%list
  /\ lookups s' = lookups s
  /\ infoHash s' = last (map infoHash_of ts) (infoHash s).
Proof.
  induction ts as [|t ts IH]; intros s h Hd Hr Hdef.
  - cbn. rewrite app_nil_r. auto.
  - cbn [forallb] in Hdef. apply andb_prop in Hdef as [Ht Hts].
    cbn [map]. rewrite PeerDiscoveryFacts.run_cons. cbn [step].
    destruct (setTorrent_waits s h t Hd Hr Ht) as [_ [D [R [Hh [L I]]]]].
    cbn zeta in *. rewrite <- R in Hr.
    destruct (IH _ h D Hr Hts) as [D2 [H2 [L2 I2]]]. cbn zeta in *.
    split; [exact D2|]. split; [|split].
    + rewrite H2, Hh, <- app_assoc. reflexivity.
    + now rewrite L2.
    + rewrite I2, I. destruct ts as [|v ts']; [reflexivity|].
      cbn [map]. change (last (infoHash_of t :: infoHash_of v :: map infoHash_of ts') (infoHash s))
        with (last (infoHash_of v :: map infoHash_of ts') (infoHash s)).
      apply last_nonempty.
Qed.

Lemma ready_looks_up hs : forall s h arg,
  dht s = DHandle h ->
  Forall (fun x => x = HLookupAndAnnounce) hs ->
  lookups (snd (call_all s hs arg))
  = (lookups s ++ repeat (infoHash s) (List.length hs))%list.
Proof.
  induction hs as [|x hs IH]; intros s h arg Hd Hall.
  - cbn. now rewrite app_nil_r.
  - inversion Hall as [|? ? -> Hrest]; subst.
    cbn [call_all call]. unfold _dhtLookupAndAnnounce. rewrite Hd.
    rewrite (IH _ h) by auto. rewrite lookups_act. cbn. now rewrite <- app_assoc.
Qed.

(** X23: every [setTorrent] made while the DHT is not ready leaves one
    more listener of its 'ready'; nothing is looked up before, and when the
    DHT becomes ready one lookup is issued per earlier [setTorrent] call,
    each for the content identifier of the last call. *)
Theorem one_lookup_per_setTorrent
    (opts : option Opts) (next : nat) (ready : list nat) (self : State)
    (h : nat) (torrents : list value) :
  PeerDiscovery opts next ready = (Normal tt, self) ->
  dht self = DHandle h ->
  existsb (Nat.eqb h) ready = false ->
  forallb defined torrents = true ->
  let s := run self (map CallSetTorrent torrents) in
  lookups s = []
  /\ lookups (run s [DhtEmitsReady h]) = repeat (infoHash s) (List.length torrents)
  /\ infoHash s = last (map infoHash_of torrents) (infoHash self).
Proof.
  intros H Hd Hr Hdef s.
  assert (H0 : dht_ready self = ready /\ handlers self (EDht h) NReady = []
               /\ lookups self = []).
  { pose proof (PeerDiscoveryFacts.constructed _ _ _ _ H) as [_ [_ Hc]]. cbn zeta in Hc.
    assert (R : dht_ready self = ready).
    { revert H. unfold PeerDiscovery, _createDHT. cbn zeta. cbn [peerId dht].
      destruct (peerId_truthy _); cbn [negb]; [|discriminate].
      destruct (default (DBool true) _) as [|[|]|k]; cbn; intro E; inversion E; reflexivity. }
    split; [exact R|].
    destruct Hc as [[k [_ [_ [_ [A [_ L]]]]]]|[[_ [_ [_ [A [_ L]]]]]|[_ [E _]]]];
      try congruence; unfold handlers, lookups; rewrite L, A; cbn;
      split; try reflexivity; now rewrite andb_false_r. }
  destruct H0 as [R0 [H0 L0]]. rewrite <- R0 in Hr.
  destruct (setTorrents_wait torrents self h Hd Hr Hdef) as [D [Hh [L I]]].
  cbn zeta in *. fold s in D, Hh, L, I.
  split; [now rewrite L|]. split; [|exact I].
  cbn [run fold_left step snd]. unfold deliver.
  assert (Hq : handlers (set_dht_ready s (h :: dht_ready s)) (EDht h) NReady
               = repeat HLookupAndAnnounce (List.length torrents)).
  { change (handlers (set_dht_ready s _) (EDht h) NReady) with (handlers s (EDht h) NReady).
    now rewrite Hh, H0. }
  rewrite Hq, (ready_looks_up _ _ h).
  - change (lookups (set_dht_ready s _)) with (lookups s). rewrite L, L0.
    now rewrite repeat_length.
  - exact D.
  - apply Forall_forall. intros x Hx. now apply repeat_spec in Hx.
Qed.

End CoordinatorFacts.

(** ** The further properties at sample inputs *)

Lemma remove_takes_first_match_witness :
  let self := Part001.mkClient Sample.three_torrents 3 [] in
  let t := Sample.entry 1 Sample.hashB 100 200 in
  exists l1 l2,
    Part001.torrents self = (l1 ++ t :: l2)%list
    /\ (forall u, In u l1 ->
          t_infoHash u
          <> toInfoHash Sample.magnet Sample.parseTorrent (VPrim (PStr Sample.hashB)))
    /\ Part001.remove Sample.magnet Sample.parseTorrent self (VPrim (PStr Sample.hashB)) CbUser
       = (Normal tt,
          {| Part001.torrents := (l1 ++ l2)%list;
             Part001.next_uid := Part001.next_uid self;
             Part001.trace := (Part001.trace self ++ [TorrentDestroy (t_uid t) CbUser])%list |}).
Proof.
  apply (remove_takes_first_match Sample.magnet Sample.parseTorrent
           (Part001.mkClient Sample.three_torrents 3 []) (VPrim (PStr Sample.hashB)) CbUser
           (Sample.entry 1 Sample.hashB 100 200)).
  - cbn. repeat constructor; cbn; intuition discriminate.
  - reflexivity.
Defined.



Lemma ready_is_kept_witness :
  let opts := Part002.mkOpts None None None None in
  let c := Part002.run Sample.magnet Sample.parseTorrent
             (Part002.Client_new Sample.magnet Sample.parseTorrent opts)
             [Part002.DhtOnReady; Part002.PortfinderCb None (Some 51413%N)] in
  Part002.ready
    (Part002.run Sample.magnet Sample.parseTorrent c
       [Part002.CallAdd (VPrim (PStr Sample.hashA)); Part002.DhtOnReady;
        Part002.PortfinderCb (Some "EADDRINUSE") None]) = true.
Proof.
  intros opts c.
  apply (Part002More.ready_is_kept Sample.magnet Sample.parseTorrent c).
  reflexivity.
Defined.

Lemma failed_bootstrap_parks_adds_witness :
  let a := VPrim (PStr Sample.hashA) in
  let b := VBuffer Sample.leaves_infoHash in
  let inputs := [Part002.CallAdd a; Part002.PortfinderCb (Some "EADDRINUSE") None;
                 Part002.CallAdd b; Part002.DhtOnReady] in
  let c := Part002.run Sample.magnet Sample.parseTorrent
             (Part002.Client_new Sample.magnet Sample.parseTorrent
                (Part002.mkOpts None None None None)) inputs in
  Part002.ready c = false /\ Part002.torrents c = []
  /\ map snd (Part002.ready_listeners c) = [a; b].
Proof.
  intros a b inputs.
  apply (Part002More.failed_bootstrap_parks_adds Sample.magnet Sample.parseTorrent
           (Part002.mkOpts None None None None) inputs).
  - reflexivity.
  - reflexivity.
Defined.

Lemma fixed_port_is_kept_witness :
  let opts := Part002.mkOpts None None (Some 6881%N) None in
  let c := Part002.run Sample.magnet Sample.parseTorrent
             (Part002.Client_new Sample.magnet Sample.parseTorrent opts)
             [Part002.CallAdd (VPrim (PStr Sample.hashA)); Part002.DhtOnListening 6882%N;
              Part002.DhtOnReady] in
  Part002.torrentPort c = Some 6881%N /\ ~ In PortfinderGetPort (Part002.trace c).
Proof.
  intros opts.
  apply (Part002More.fixed_port_is_kept Sample.magnet Sample.parseTorrent opts).
  - reflexivity.
  - reflexivity.
Defined.

Lemma disabled_dht_is_never_used_witness :
  let opts := Part002.mkOpts (Some false) None None None in
  let c := Part002.run Sample.magnet Sample.parseTorrent
             (Part002.Client_new Sample.magnet Sample.parseTorrent opts)
             [Part002.CallAdd (VPrim (PStr Sample.hashA));
              Part002.PortfinderCb None (Some 51413%N);
              Part002.CallAdd (VBuffer Sample.leaves_infoHash)] in
  Part002.dht c = false
  /\ forallb (fun e => negb (Effects002.is_dht_effect e)) (Part002.trace c) = true.
Proof.
  intros opts.
  apply (Part002More.disabled_dht_is_never_used Sample.magnet Sample.parseTorrent opts).
  reflexivity.
Defined.


Lemma destroy_stops_at_unfindable_torrent_witness :
  let first := Sample.entry 0 Sample.hashA 0 0 in
  let odd := Sample.entry 1 "not an info hash" 0 0 in
  let last := Sample.entry 2 Sample.hashC 0 0 in
  let self := Part000.mkClient [first; odd; last] true (RunParallel.init 0 false) 3 [] in
  exists c',
    Part000.destroy Sample.parseTorrent self true
      = (Throw (no_torrent (VPrim (t_infoHash odd))), c')
    /\ Part000.torrents c' = [odd; last]
    /\ Part000.trace c' = (Part000.trace self ++ Part000.teardowns 0 [first])%list
    /\ Part000.callbacks c' = Part000.callbacks self.
Proof.
  intros first odd last self.
  apply (TeardownMore.destroy_stops_at_unfindable_torrent Sample.parseTorrent
           self [first] [last] odd true).
  - reflexivity.
  - constructor; [reflexivity | constructor].
  - reflexivity.
Defined.

Lemma destroy_002_leaves_dht_out_witness :
  let c := Part002.run Sample.magnet Sample.parseTorrent
             (Part002.Client_new Sample.magnet Sample.parseTorrent
                (Part002.mkOpts None None (Some 6881%N) None))
             [Part002.DhtOnReady; Part002.CallAdd (VPrim (PStr Sample.hashA));
              Part002.CallAdd (VBuffer Sample.leaves_infoHash)] in
  exists c',
    Part002.destroy Sample.magnet Sample.parseTorrent c true = (Normal tt, c')
    /\ Part002.torrents c' = []
    /\ Part002.trace c' =
         (Part002.trace c
          ++ (if Part002.dht c then [DhtDestroy CbNone] else [])
          ++ Part000.teardowns 0 (Part002.torrents c)
          ++ (match Part002.torrents c with
              | [] => [Callback None]
              | _ => []
              end))%list
    /\ RunParallel.pending (Part002.par_destroy c')
       = Z.of_nat (List.length (Part002.torrents c)).
Proof.
  intros c.
  apply (TeardownMore.destroy_002_leaves_dht_out Sample.magnet Sample.parseTorrent c true).
  vm_compute. repeat constructor.
Defined.

Lemma tracker_client_is_made_once_witness :
  let opts := PeerDiscovery.mkOpts (Some (PeerDiscovery.PidString "-WW0001-abcdefghijkl"))
                None (Some (PeerDiscovery.DHandle 7)) None None (Some 6881%N) None in
  let self := snd (PeerDiscovery.PeerDiscovery (Some opts) 0 []) in
  let s := PeerDiscovery.run self
             [PeerDiscovery.CallSetTorrent (VPrim (PStr Sample.hashA));
              PeerDiscovery.CallSetTorrent (VObject (PStr Sample.hashA));
              PeerDiscovery.CallStop;
              PeerDiscovery.CallSetTorrent (VObject (PStr Sample.hashB))] in
  Coordinator.trackers_new s = 1.
Proof.
  intros opts self s.
  refine (proj2 (proj2 (CoordinatorFacts.tracker_client_is_made_once
                          (Some opts) 0 [] self
                          [PeerDiscovery.CallSetTorrent (VPrim (PStr Sample.hashA));
                           PeerDiscovery.CallSetTorrent (VObject (PStr Sample.hashA));
                           PeerDiscovery.CallStop;
                           PeerDiscovery.CallSetTorrent (VObject (PStr Sample.hashB))]
                          eq_refl)) eq_refl eq_refl).
Defined.

Lemma dht_calls_stay_on_own_dht_witness :
  let opts := PeerDiscovery.mkOpts (Some (PeerDiscovery.PidString "-WW0001-abcdefghijkl"))
                None (Some PeerDiscovery.DUndefined) None None (Some 6881%N) None in
  let s := snd (PeerDiscovery.PeerDiscovery (Some opts) 0 []) in
  let inputs := [PeerDiscovery.CallSetTorrent (VPrim (PStr Sample.hashA));
                 PeerDiscovery.DhtEmitsReady 0; PeerDiscovery.LookupCb None;
                 PeerDiscovery.AnnounceCb; PeerDiscovery.CallStop] in
  exists l,
    PeerDiscovery.actions (PeerDiscovery.run s inputs) = (PeerDiscovery.actions s ++ l)%list
    /\ forallb (Coordinator.dht_call_ok 0 (Some 6881%N)) l = true.
Proof.
  intros opts s inputs.
  apply (CoordinatorFacts.dht_calls_stay_on_own_dht s 0 inputs).
  reflexivity.
Defined.

Lemma disabled_dht_is_left_alone_witness :
  let opts := PeerDiscovery.mkOpts (Some (PeerDiscovery.PidString "-WW0001-abcdefghijkl"))
                None (Some (PeerDiscovery.DBool false)) None None (Some 6881%N) None in
  let self := snd (PeerDiscovery.PeerDiscovery (Some opts) 0 []) in
  let inputs := [PeerDiscovery.CallSetTorrent (VPrim (PStr Sample.hashA));
                 PeerDiscovery.DhtEmitsReady 0; PeerDiscovery.LookupCb None;
                 PeerDiscovery.CallStop] in
  PeerDiscovery.dht (PeerDiscovery.run self inputs) = PeerDiscovery.DBool false
  /\ forallb (fun a => negb (Coordinator.is_dht_action a))
             (PeerDiscovery.actions (PeerDiscovery.run self inputs)) = true.
Proof.
  intros opts self inputs.
  apply (CoordinatorFacts.disabled_dht_is_left_alone (Some opts) 0 [] self inputs).
  - reflexivity.
  - reflexivity.
Defined.

Lemma every_stop_destroys_again_witness :
  let opts := PeerDiscovery.mkOpts (Some (PeerDiscovery.PidString "-WW0001-abcdefghijkl"))
                None (Some PeerDiscovery.DUndefined) None None None None in
  let s := PeerDiscovery.run (snd (PeerDiscovery.PeerDiscovery (Some opts) 0 []))
             [PeerDiscovery.CallSetTorrent (VPrim (PStr Sample.hashA))] in
  PeerDiscovery.destroy_count 0 (PeerDiscovery.run s (repeat PeerDiscovery.CallStop 3))
  = PeerDiscovery.destroy_count 0 s + 3.
Proof.
  intros opts s.
  apply (CoordinatorFacts.every_stop_destroys_again s 0 3).
  - reflexivity.
  - reflexivity.
Defined.

Lemma stop_before_start_throws_witness :
  let opts := PeerDiscovery.mkOpts (Some (PeerDiscovery.PidString "-WW0001-abcdefghijkl"))
                None (Some PeerDiscovery.DUndefined) None None None None in
  let self := snd (PeerDiscovery.PeerDiscovery (Some opts) 0 []) in
  let inputs := [PeerDiscovery.DhtEmitsReady 0; PeerDiscovery.DhtEmitsPeer 0 "10.0.0.1:6881"] in
  PeerDiscovery.stop (PeerDiscovery.run self inputs)
  = (Throw (PeerDiscovery.not_a_function "self.tracker.stop"), PeerDiscovery.run self inputs).
Proof.
  intros opts self inputs.
  exact (CoordinatorFacts.stop_before_start_throws (Some opts) 0 [] self inputs
           eq_refl eq_refl eq_refl).
Defined.

Lemma boolean_dht_is_refused_witness :
  let opts := Some (PeerDiscovery.mkOpts
                      (Some (PeerDiscovery.PidString "-WW0001-abcdefghijkl"))
                      None None None None None None) in
  fst (PeerDiscovery.PeerDiscovery opts 0 [])
    = Throw (PeerDiscovery.not_a_function "self.dht.on")
  /\ PeerDiscovery.externalDHT (snd (PeerDiscovery.PeerDiscovery opts 0 [])) = true
  /\ PeerDiscovery.actions (snd (PeerDiscovery.PeerDiscovery opts 0 [])) = []
  /\ PeerDiscovery.listeners (snd (PeerDiscovery.PeerDiscovery opts 0 [])) = []
  /\ PeerDiscovery.next_handle (snd (PeerDiscovery.PeerDiscovery opts 0 [])) = 0.
Proof.
  intros opts.
  apply (CoordinatorFacts.boolean_dht_is_refused opts 0 []).
  - reflexivity.
  - reflexivity.
Defined.

Lemma one_lookup_per_setTorrent_witness :
  let opts := PeerDiscovery.mkOpts (Some (PeerDiscovery.PidString "-WW0001-abcdefghijkl"))
                None (Some PeerDiscovery.DUndefined) None None (Some 6881%N) None in
  let self := snd (PeerDiscovery.PeerDiscovery (Some opts) 0 []) in
  let torrents := [VPrim (PStr Sample.hashA); VObject (PStr Sample.hashB)] in
  let s := PeerDiscovery.run self (map PeerDiscovery.CallSetTorrent torrents) in
  Coordinator.lookups s = []
  /\ Coordinator.lookups (PeerDiscovery.run s [PeerDiscovery.DhtEmitsReady 0])
     = [VPrim (PStr Sample.hashB); VPrim (PStr Sample.hashB)]
  /\ PeerDiscovery.infoHash s = VPrim (PStr Sample.hashB).
Proof.
  intros opts self torrents s.
  destruct (CoordinatorFacts.one_lookup_per_setTorrent (Some opts) 0 [] self 0 torrents
              eq_refl eq_refl eq_refl eq_refl) as [H1 [H2 H3]].
  split; [exact H1|]. split.
  - exact (eq_trans H2 eq_refl).
  - exact (eq_trans H3 eq_refl).
Defined.
